(** * Subdomain enumerator: fast and slow tool queue with ETA

    A shallow embedding of [main.py]: the estimate table and
    [estimate_total_time], the task runner [run_tool], the two thread pools
    of [main] as a step relation, the collection loop that fills
    [all_results], and the final [os.makedirs] / [open(..., "w")] step.

    Python values are modelled as follows.
    - [str] is a list of Unicode code points ([N]); the built-in methods
      the script calls ([split], [splitlines], [strip], [in], [<]) follow
      CPython's definitions, including its tables of whitespace and
      line-break characters.
    - [bytes] is a list of [Byte.byte]; [.decode("utf-8", errors="ignore")]
      is written out.
    - [int] is [Z].
    - the [set] [all_results] is a [gset]; the order in which Python
      iterates over it is left open (any enumeration of the set).
    - the [dict] [TOOL_ESTIMATES] is a [gmap].
    - [queue.Queue] is the list of its items, oldest first.

    The machine the script runs on enters as parameters: [shutil.which],
    the behaviour of each command under [subprocess.check_output], and
    the file system calls.  Paths follow [posixpath].  Left out are the
    wall clock (the seconds a task logs come with the result of its
    subprocess), exceptions that are not [Exception]s, failures of
    [logging], and the encoding of the output file (text is code points
    throughout). *)

From Stdlib Require Import ZArith NArith List Ascii String Lia.
From Stdlib.Strings Require Import Byte.
From stdpp Require Import base decidable list sorting gmap strings.

Local Open Scope N_scope.

(** ** Python strings *)

Abbreviation str := (list N).

(** A string literal of the script, as code points. *)
Definition py (s : string) : str :=
  map N_of_ascii (list_ascii_of_string s).

(** [str.isspace] on one character: CPython's [_PyUnicode_IsWhitespace]. *)
Definition isspace (c : N) : bool :=
  (9 <=? c) && (c <=? 13)
  || (28 <=? c) && (c <=? 32)
  || (c =? 133) || (c =? 160) || (c =? 5760)
  || (8192 <=? c) && (c <=? 8202)
  || (c =? 8232) || (c =? 8233) || (c =? 8239) || (c =? 8287)
  || (c =? 12288).

(** The line boundaries of [str.splitlines]: CPython's
    [_PyUnicode_IsLinebreak]. *)
Definition is_linebreak (c : N) : bool :=
  (10 <=? c) && (c <=? 13)
  || (28 <=? c) && (c <=? 30)
  || (c =? 133) || (c =? 8232) || (c =? 8233).

(** [s.splitlines()]: the lines without their boundaries; a carriage
    return takes a line feed right after it with it, and a boundary at the
    very end opens no further line.  [cur] holds the current line,
    reversed. *)
Fixpoint splitlines_from (cur : str) (s : str) : list str :=
  match s with
  | [] => match cur with [] => [] | _ => [rev cur] end
  | c :: rest =>
      if is_linebreak c then
        rev cur ::
          match rest with
          | c' :: rest' =>
              if (c =? 13) && (c' =? 10) then splitlines_from [] rest'
              else splitlines_from [] rest
          | [] => []
          end
      else splitlines_from (c :: cur) rest
  end.

Definition splitlines (s : str) : list str := splitlines_from [] s.

(** [s.lstrip()], [s.rstrip()] and [s.strip()] with no argument. *)
Fixpoint lstrip (s : str) : str :=
  match s with
  | c :: rest => if isspace c then lstrip rest else s
  | [] => []
  end.

Definition rstrip (s : str) : str := rev (lstrip (rev s)).

Definition strip (s : str) : str := rstrip (lstrip s).

(** [s.split()] with no argument: the maximal runs of non-whitespace. *)
Fixpoint split_from (cur : str) (s : str) : list str :=
  match s with
  | [] => match cur with [] => [] | _ => [rev cur] end
  | c :: rest =>
      if isspace c then
        match cur with
        | [] => split_from [] rest
        | _ => rev cur :: split_from [] rest
        end
      else split_from (c :: cur) rest
  end.

Definition split (s : str) : list str := split_from [] s.

(** [exe] is the first whitespace-delimited token of [cmd]: after
    leading whitespace, the longest run of characters that are not
    whitespace. *)
Definition first_token (cmd exe : str) : Prop :=
  exists ws rest,
    cmd = ws ++ exe ++ rest /\
    forallb isspace ws = true /\
    exe <> [] /\
    forallb (fun c => negb (isspace c)) exe = true /\
    match rest with [] => True | c :: _ => isspace c = true end.

(** [s.startswith(p)]. *)
Fixpoint startswith (p s : str) : bool :=
  match p, s with
  | [], _ => true
  | _ :: _, [] => false
  | a :: p', b :: s' => (a =? b) && startswith p' s'
  end.

(** [p in s] for two strings: [p] occurs in [s] as a contiguous run. *)
Fixpoint str_in (p s : str) : bool :=
  startswith p s ||
  match s with
  | [] => false
  | _ :: s' => str_in p s'
  end.

(** Truth value of a string: [if line] holds for a non-empty one. *)
Definition truthy (s : str) : bool :=
  match s with [] => false | _ => true end.

(** Comparison of strings, code point by code point. *)
Fixpoint str_compare (a b : str) : comparison :=
  match a, b with
  | [], [] => Eq
  | [], _ :: _ => Lt
  | _ :: _, [] => Gt
  | x :: a', y :: b' =>
      match N.compare x y with
      | Eq => str_compare a' b'
      | o => o
      end
  end.

(** [a < b] and [a <= b] on strings. *)
Definition str_lt (a b : str) : Prop := str_compare a b = Lt.
Definition str_le (a b : str) : Prop := str_compare a b <> Gt.

#[global] Instance str_lt_dec (a b : str) : Decision (str_lt a b).
Proof. unfold str_lt. solve_decision. Defined.

#[global] Instance str_le_dec (a b : str) : Decision (str_le a b).
Proof.
  unfold str_le.
  destruct (str_compare a b); [left | left | right]; congruence.
Defined.

(** [sorted(xs)] on strings.  Python's sort is stable; so is this merge
    sort, and on a list of strings every stable sort returns the same
    list. *)
Definition sorted (xs : list str) : list str := merge_sort str_le xs.

(** ** Bytes *)

Definition is_continuation (b : N) : bool := (128 <=? b) && (b <=? 191).

(** The second byte a lead byte [b0] of a three-byte sequence accepts: no
    overlong form after [0xE0], no surrogate after [0xED]. *)
Definition second_of_three (b0 b1 : N) : bool :=
  if b0 =? 224 then (160 <=? b1) && (b1 <=? 191)
  else if b0 =? 237 then (128 <=? b1) && (b1 <=? 159)
  else is_continuation b1.

(** The second byte a lead byte [b0] of a four-byte sequence accepts: no
    overlong form after [0xF0], nothing above U+10FFFF after [0xF4]. *)
Definition second_of_four (b0 b1 : N) : bool :=
  if b0 =? 240 then (144 <=? b1) && (b1 <=? 191)
  else if b0 =? 244 then (128 <=? b1) && (b1 <=? 143)
  else is_continuation b1.

(** UTF-8 decoding that skips what is not well formed.  A byte that
    starts no well-formed sequence is dropped and decoding resumes at the
    next byte; the bytes CPython drops with it in one step are
    continuation bytes, which start no sequence either. *)
Fixpoint utf8_ignore (bs : list N) : str :=
  match bs with
  | [] => []
  | b0 :: r0 =>
      if b0 <? 128 then b0 :: utf8_ignore r0
      else if (194 <=? b0) && (b0 <=? 223) then
        match r0 with
        | b1 :: r1 =>
            if is_continuation b1
            then ((b0 - 192) * 64 + (b1 - 128)) :: utf8_ignore r1
            else utf8_ignore r0
        | [] => []
        end
      else if (224 <=? b0) && (b0 <=? 239) then
        match r0 with
        | b1 :: b2 :: r2 =>
            if second_of_three b0 b1 && is_continuation b2
            then ((b0 - 224) * 4096 + (b1 - 128) * 64 + (b2 - 128))
                   :: utf8_ignore r2
            else utf8_ignore r0
        | _ => utf8_ignore r0
        end
      else if (240 <=? b0) && (b0 <=? 244) then
        match r0 with
        | b1 :: b2 :: b3 :: r3 =>
            if second_of_four b0 b1 && is_continuation b2
               && is_continuation b3
            then ((b0 - 240) * 262144 + (b1 - 128) * 4096
                  + (b2 - 128) * 64 + (b3 - 128)) :: utf8_ignore r3
            else utf8_ignore r0
        | _ => utf8_ignore r0
        end
      else utf8_ignore r0
  end.

(** [b.decode("utf-8", errors="ignore")]. *)
Definition decode (b : list byte) : str := utf8_ignore (map Byte.to_N b).

(** ** The estimate table and the ETA *)

(** [TOOL_ESTIMATES]; its keys are pairwise different. *)
Definition TOOL_ESTIMATES : gmap (list N) Z :=
  list_to_map
    [ (py "assetfinder", 5%Z);
      (py "subfinder", 7%Z);
      (py "findomain", 5%Z);
      (py "theHarvester", 10%Z);
      (py "amass", 15%Z);
      (py "sublist3r", 10%Z);
      (py "dnsrecon", 25%Z);
      (py "dnsenum", 30%Z);
      (py "fierce", 30%Z);
      (py "gobuster", 35%Z);
      (py "massdns", 40%Z) ].

(** A tool of [all_tools]: the pair (name, command). *)
Abbreviation tool := (list N * list N)%type.

(** [TOOL_ESTIMATES.get(name, 10)]. *)
Definition estimate_of (name : str) : Z :=
  default 10%Z (TOOL_ESTIMATES !! name).

(** [sum(xs)]: Python adds from the left, starting at 0. *)
Definition py_sum (xs : list Z) : Z := foldl Z.add 0%Z xs.

Definition estimate_total_time (tool_list : list tool) : Z :=
  py_sum (map (fun tool => estimate_of (fst tool)) tool_list).

(** ** The task runner *)

(** What [logging] receives.  Each constructor is one call of the script:
    [logging.info(f"Running: {name}")],
    [logging.warning(f"{name} not found. Skipping...")],
    [logging.info(f"Finished: {name} in {secs}s")],
    [logging.warning(f"{name} timed out.")],
    [logging.error(f"{name} failed: {str(e)}")],
    and the two phase headers and the closing line of [main]. *)
Inductive LogRecord : Type :=
  | Running (name : str)
  | NotFound (name : str)
  | Finished (name : str) (secs : Z)
  | TimedOut (name : str)
  | Failed (name : str) (detail : str)
  | PhaseHeader (phase : nat) (eta : Z)
  | Saved (output_file : str) (total : nat).

(** What [subprocess.check_output(cmd, shell=True, stderr=DEVNULL,
    timeout=180)] can do: return the bytes of standard output ([secs] is
    what [int(time.time() - start)] then reads), raise [TimeoutExpired]
    (the exception carries the output captured so far), or raise another
    exception: [CalledProcessError] on a non-zero exit status, [OSError]
    when the shell cannot be started, and so on. *)
Inductive ProcResult : Type :=
  | Returned (stdout : list byte) (secs : Z)
  | TimeoutExpired (partial : list byte)
  | Raised (detail : str).

(** An exception that leaves a function of the script. *)
Inductive Exn : Type :=
  | IndexError
  | OSError (errno : Z).

(** How a call ends: it returns, or an exception leaves it. *)
Inductive Completion : Type :=
  | Normal
  | Uncaught (e : Exn).

(** The state the tasks share: the items of [output_q] (oldest first),
    the log, and the commands handed to [subprocess.check_output]. *)
Record World : Type := mkWorld {
  output_q : list (list N * list N);
  log : list LogRecord;
  invoked : list (list N)
}.

Definition emit (r : LogRecord) (w : World) : World :=
  mkWorld (output_q w) (log w ++ [r]) (invoked w).

Definition put (item : list N * list N) (w : World) : World :=
  mkWorld (output_q w ++ [item]) (log w) (invoked w).

Definition invoke (cmd : str) (w : World) : World :=
  mkWorld (output_q w) (log w) (invoked w ++ [cmd]).

Definition empty_world : World := mkWorld [] [] [].

(** The four ways a task can end, read off the record it logs last. *)
Inductive Status : Type := ok | not_found | timed_out | failed.

Definition status_of (r : LogRecord) : option Status :=
  match r with
  | Finished _ _ => Some ok
  | NotFound _ => Some not_found
  | TimedOut _ => Some timed_out
  | Failed _ _ => Some failed
  | _ => None
  end.

#[global] Instance Status_eq_dec : EqDecision Status.
Proof. solve_decision. Defined.

(** How the task that wrote its records last ended, if it has ended. *)
Definition outcome (w : World) : option Status :=
  match last (log w) with
  | Some r => status_of r
  | None => None
  end.

Section Runner.

(** The machine the script runs on: [shutil.which] and the behaviour of
    each command line under [subprocess.check_output]. *)
Variable which : list N -> option (list N).
Variable check_output : list N -> ProcResult.

(** [shutil.which(cmd.split()[0]) is None], negated: the test that guards
    the subprocess.  Indexing an empty list raises [IndexError]. *)
Definition available (cmd : str) : Exn + bool :=
  match split cmd with
  | [] => inl IndexError
  | exe :: _ => inr (bool_decide (which exe <> None))
  end.

(** [run_tool] after its first log line. *)
Definition run_tool_body (name cmd : str) (w : World) : Completion * World :=
  match available cmd with
  | inl e => (Uncaught e, w)
  | inr false => (Normal, emit (NotFound name) w)
  | inr true =>
      let w := invoke cmd w in
      match check_output cmd with
      | Returned stdout secs =>
          (Normal, emit (Finished name secs) (put (name, decode stdout) w))
      | TimeoutExpired _ => (Normal, emit (TimedOut name) w)
      | Raised detail => (Normal, emit (Failed name detail) w)
      end
  end.

(** [run_tool(name, cmd, output_q)]. *)
Definition run_tool (name cmd : str) (w : World) : Completion * World :=
  run_tool_body name cmd (emit (Running name) w).

(** What one task puts on the queue: its decoded output if the command
    is available and returns, nothing otherwise. *)
Definition delivered (t : list N * list N) : list (list N * list N) :=
  match available (snd t), check_output (snd t) with
  | inr true, Returned stdout _ => [(fst t, decode stdout)]
  | _, _ => []
  end.

End Runner.

(** ** The tool table of [main] *)

Definition all_tools (domain : str) : list tool :=
  [ (py "assetfinder", py "assetfinder --subs-only " ++ domain);
    (py "subfinder", py "subfinder -d " ++ domain);
    (py "findomain", py "findomain -t " ++ domain ++ py " -u -");
    (py "theHarvester", py "theHarvester -d " ++ domain ++ py " -b all");
    (py "amass", py "amass enum -passive -d " ++ domain);
    (py "sublist3r", py "python3 /usr/local/bin/sublist3r -d " ++ domain);
    (py "dnsrecon", py "dnsrecon -d " ++ domain);
    (py "dnsenum", py "dnsenum " ++ domain);
    (py "fierce", py "fierce --domain " ++ domain);
    (py "gobuster",
      py "gobuster dns -d " ++ domain
        ++ py " -w /usr/share/wordlists/dirb/common.txt -q");
    (py "massdns",
      py "massdns -r /etc/resolv.conf -t A -o S -w massdns.txt " ++ domain) ].

Definition fast_tools : list str :=
  [ py "assetfinder"; py "subfinder"; py "findomain"; py "theHarvester";
    py "amass"; py "sublist3r" ].

Definition fast_phase (domain : str) : list tool :=
  filter (fun t => fst t ∈ fast_tools) (all_tools domain).

Definition slow_phase (domain : str) : list tool :=
  filter (fun t => fst t ∉ fast_tools) (all_tools domain).

(** ** The two thread pools of [main]

    [ThreadPoolExecutor(max_workers=k)] takes the submitted calls in the
    order of submission and runs at most [k] of them at once; a running
    call may end at any moment.  [concurrent.futures.wait] and leaving
    the [with] block return once every call has ended, whether it
    returned or raised (an exception stays in its future, which [main]
    never reads). *)

Inductive Event : Type :=
  | Started (t : tool)
  | Ended (t : tool).

Definition tool_of (e : Event) : tool :=
  match e with Started t | Ended t => t end.

Record Pool : Type := mkPool {
  pending : list tool;
  running : list tool;
  world : World
}.

Section Phases.

Variable which : list N -> option (list N).
Variable check_output : list N -> ProcResult.

(** One step of a pool: a free worker takes the oldest pending call, or a
    running call ends.  A call writes its first log line when it starts;
    what it then does to the queue, the log and the list of invoked
    commands is recorded in one piece when it ends, so the queue is in
    the order in which the calls ended. *)
Inductive pool_step (max_workers : nat) : Pool -> Event -> Pool -> Prop :=
  | pool_start t ts rs w :
      (length rs < max_workers)%nat ->
      pool_step max_workers
        (mkPool (t :: ts) rs w)
        (Started t)
        (mkPool ts (rs ++ [t]) (emit (Running (fst t)) w))
  | pool_end t ts rs1 rs2 w :
      pool_step max_workers
        (mkPool ts (rs1 ++ t :: rs2) w)
        (Ended t)
        (mkPool ts (rs1 ++ rs2)
           (snd (run_tool_body which check_output (fst t) (snd t) w))).

Inductive pool_steps (max_workers : nat) : Pool -> list Event -> Pool -> Prop :=
  | pool_steps_nil p : pool_steps max_workers p [] p
  | pool_steps_cons p e p' tr p'' :
      pool_step max_workers p e p' ->
      pool_steps max_workers p' tr p'' ->
      pool_steps max_workers p (e :: tr) p''.

(** One [with ThreadPoolExecutor(...)] block of [main]: from all calls
    submitted to none pending and none running. *)
Definition phase_run (max_workers : nat) (tasks : list tool)
    (w : World) (tr : list Event) (w' : World) : Prop :=
  pool_steps max_workers (mkPool tasks [] w) tr (mkPool [] [] w').

(** The schedule in which each call ends before the next one starts:
    its events, and the state it leaves. *)
Definition trace_in_turn (tasks : list tool) : list Event :=
  flat_map (fun t => [Started t; Ended t]) tasks.

Definition run_in_turn (tasks : list tool) (w : World) : World :=
  foldl (fun w t => snd (run_tool which check_output (fst t) (snd t) w))
    w tasks.

(** Lines 102 to 113 of [main]: the fast phase, then the slow phase. *)
Inductive main_phases (domain : str) : list Event -> World -> Prop :=
  | main_phases_intro tr1 w1 tr2 w2 :
      phase_run 5 (fast_phase domain)
        (emit (PhaseHeader 1 (estimate_total_time (fast_phase domain)))
           empty_world)
        tr1 w1 ->
      phase_run 4 (slow_phase domain)
        (emit (PhaseHeader 2 (estimate_total_time (slow_phase domain))) w1)
        tr2 w2 ->
      main_phases domain (tr1 ++ tr2) w2.

End Phases.

(** ** The result collector *)

(** The body of the inner loop: one line of one output. *)
Definition add_line (domain : str) (all_results : gset (list N))
    (line : str) : gset (list N) :=
  let line := strip line in
  if truthy line && str_in domain line
  then all_results ∪ {[ line ]}
  else all_results.

(** The inner loop: [for line in output.splitlines(): ...]. *)
Definition add_output (domain : str) (all_results : gset (list N))
    (output : str) : gset (list N) :=
  foldl (add_line domain) all_results (splitlines output).

(** The outer loop: the queue is emptied, oldest item first, into a set
    that starts empty. *)
Definition collect (domain : str) (q : list (list N * list N))
    : gset (list N) :=
  foldl (fun all_results item => add_output domain all_results (snd item))
    ∅ q.

(** [for subdomain in sorted(all_results)]: Python may hand the elements
    of a set to [sorted] in any order. *)
Definition iterates (all_results : gset (list N)) (order : list str) : Prop :=
  order ≡ₚ elements all_results.

(** [line] is one of the lines the collector keeps from [output]: a line
    of [output.splitlines()], stripped, that is not empty and has
    [domain] in it. *)
Definition kept_line (domain output line : str) : Prop :=
  exists raw,
    raw ∈ splitlines output /\ line = strip raw /\
    line <> [] /\ str_in domain line = true.

(** ** Paths ([posixpath]) *)

Definition SEP : N := 47.

(** The longest prefix of characters that satisfy [f], and what is left
    after it. *)
Fixpoint takewhile (f : N -> bool) (s : str) : str :=
  match s with
  | c :: rest => if f c then c :: takewhile f rest else []
  | [] => []
  end.

Fixpoint dropwhile (f : N -> bool) (s : str) : str :=
  match s with
  | c :: rest => if f c then dropwhile f rest else s
  | [] => []
  end.

(** [s.rstrip("/")]. *)
Definition rstrip_sep (s : str) : str :=
  rev (dropwhile (N.eqb SEP) (rev s)).

(** [os.path.split(p)]: the part up to the last slash, without the
    slashes it ends in unless it is made of slashes only, and the part
    after the last slash. *)
Definition path_split (p : str) : str * str :=
  let tail := rev (takewhile (fun c => negb (c =? SEP)) (rev p)) in
  let head := rev (dropwhile (fun c => negb (c =? SEP)) (rev p)) in
  let head :=
    if truthy head && negb (forallb (N.eqb SEP) head)
    then rstrip_sep head else head in
  (head, tail).

(** [os.path.dirname(p)]. *)
Definition dirname (p : str) : str := fst (path_split p).

(** ** Creating the directory and writing the file *)

Definition ENOENT : Z := 2.
Definition EEXIST : Z := 17.

(** [except FileExistsError]: an [OSError] whose [errno] is [EEXIST]. *)
Definition is_FileExistsError (e : Exn) : bool :=
  match e with
  | OSError n => (n =? EEXIST)%Z
  | _ => false
  end.

(** The lines of a text file: the runs of characters that a newline
    ends, and a last run that none ends, if there is one. *)
Fixpoint text_lines_from (cur : str) (s : str) : list str :=
  match s with
  | [] => match cur with [] => [] | _ => [rev cur] end
  | c :: rest =>
      if c =? 10 then rev cur :: text_lines_from [] rest
      else text_lines_from (c :: cur) rest
  end.

Definition text_lines (s : str) : list str := text_lines_from [] s.

(** The text of a file of the given lines, each ended by a newline. *)
Definition text_of_lines (lines : list str) : str :=
  concat (map (fun l => l ++ [10]) lines).

(** The claim's words for what the collector keeps from [output]: a line
    of [output] cut at its newlines, stripped, that is not empty and has
    [domain] in it. *)
Definition kept_line_cut_at_newlines (domain output line : str) : Prop :=
  exists raw,
    raw ∈ text_lines output /\ line = strip raw /\
    line <> [] /\ str_in domain line = true.

Section Output.

(** The file system the script writes to, through the calls it makes:
    [os.path.exists], [os.path.isdir], [os.mkdir], [open(path, "w")] and
    [f.write(s)] on the file opened at [path]; [fs_read] is the content
    of a regular file, to state what was written. *)
Context {FS : Type}.
Variable fs_exists : list N -> FS -> bool.
Variable fs_isdir : list N -> FS -> bool.
Variable fs_mkdir : list N -> FS -> Z + FS.
Variable fs_open_w : list N -> FS -> Z + FS.
Variable fs_write : list N -> list N -> FS -> FS.
Variable fs_read : list N -> FS -> option (list N).

(** The last step of [os.makedirs(name, exist_ok=True)]: [mkdir], whose
    failure is let through unless the directory is there. *)
Definition mkdir_exist_ok (name : str) (fs : FS) : Completion * FS :=
  match fs_mkdir name fs with
  | inr fs' => (Normal, fs')
  | inl errno =>
      if fs_isdir name fs then (Normal, fs)
      else (Uncaught (OSError errno), fs)
  end.

(** [os.makedirs(name, exist_ok=True)], with a bound on the depth of its
    recursion; [None] when the bound is reached. *)
Fixpoint makedirs_bounded (bound : nat) (name : str) (fs : FS)
    : option (Completion * FS) :=
  match bound with
  | O => None
  | S bound' =>
      let '(head, tail) := path_split name in
      let '(head, tail) :=
        if truthy tail then (head, tail) else path_split head in
      if truthy head && truthy tail && negb (fs_exists head fs) then
        match makedirs_bounded bound' head fs with
        | None => None
        | Some (c, fs1) =>
            let swallowed :=
              match c with
              | Normal => true
              | Uncaught e => is_FileExistsError e
              end in
            if swallowed then
              if bool_decide (tail = py ".") then Some (Normal, fs1)
              else Some (mkdir_exist_ok name fs1)
            else Some (c, fs1)
        end
      else Some (mkdir_exist_ok name fs)
  end.

(** The recursion goes from a path to a proper prefix of it, so the
    length of the path, plus one, bounds its depth. *)
Definition makedirs (name : str) (fs : FS) : option (Completion * FS) :=
  makedirs_bounded (S (length name)) name fs.

(** Lines 126 to 128 of [main]: the file is opened for writing and takes
    one [write] per element of [sorted(all_results)]; [order] is the
    order in which the set hands its elements to [sorted]. *)
Definition write_results (output_file : str) (order : list str) (fs : FS)
    : Completion * FS :=
  match fs_open_w output_file fs with
  | inl errno => (Uncaught (OSError errno), fs)
  | inr fs1 =>
      (Normal,
       foldl (fun fs subdomain => fs_write output_file (subdomain ++ [10]) fs)
         fs1 (sorted order))
  end.

(** Lines 124 to 128 of [main]. *)
Definition save (output_file : str) (order : list str) (fs : FS)
    : option (Completion * FS) :=
  match makedirs (dirname output_file) fs with
  | None => None
  | Some (Uncaught e, fs1) => Some (Uncaught e, fs1)
  | Some (Normal, fs1) => Some (write_results output_file order fs1)
  end.

(** Lines 115 to 130 of [main], from the queue the two phases left. *)
Inductive main_finish (domain output_file : str) (w : World) (fs : FS)
    : Completion -> World -> FS -> Prop :=
  | main_finish_saved order fs' :
      iterates (collect domain (output_q w)) order ->
      save output_file order fs = Some (Normal, fs') ->
      main_finish domain output_file w fs Normal
        (emit (Saved output_file (size (collect domain (output_q w)))) w) fs'
  | main_finish_raised order e fs' :
      iterates (collect domain (output_q w)) order ->
      save output_file order fs = Some (Uncaught e, fs') ->
      main_finish domain output_file w fs (Uncaught e) w fs'.

End Output.

(** A file system in which a path is the name it is written as: a map
    from paths to directories ([None]) and files ([Some content]).  It
    serves to run the definitions above. *)
Module FlatFS.

Abbreviation t := (gmap (list N) (option (list N))).

Definition exists_ (p : str) (fs : t) : bool := bool_decide (is_Some (fs !! p)).

Definition isdir (p : str) (fs : t) : bool :=
  truthy p && bool_decide (fs !! p = Some None).

(** The directory a new entry goes into is there: the current directory
    for a name without slash, else a directory of the map. *)
Definition parent_ok (p : str) (fs : t) : bool :=
  match dirname p with
  | [] => true
  | d => isdir d fs
  end.

Definition mkdir (p : str) (fs : t) : Z + t :=
  if negb (truthy p) then inl ENOENT
  else if exists_ p fs then inl EEXIST
  else if parent_ok p fs then inr (<[ p := None ]> fs)
  else inl ENOENT.

Definition open_w (p : str) (fs : t) : Z + t :=
  if negb (truthy p) then inl ENOENT
  else if isdir p fs then inl 21%Z
  else if parent_ok p fs then inr (<[ p := Some [] ]> fs)
  else inl ENOENT.

Definition write (p s : str) (fs : t) : t :=
  match fs !! p with
  | Some (Some content) => <[ p := Some (content ++ s) ]> fs
  | _ => fs
  end.

Definition read (p : str) (fs : t) : option (list N) :=
  match fs !! p with
  | Some (Some content) => Some content
  | _ => None
  end.

End FlatFS.

(** ** What a run leaves behind *)

(** The calls a run started, and the calls it ended, each in the order
    of the events. *)
Definition started (tr : list Event) : list tool :=
  flat_map (fun e => match e with Started t => [t] | Ended _ => [] end) tr.

Definition ended (tr : list Event) : list tool :=
  flat_map (fun e => match e with Ended t => [t] | Started _ => [] end) tr.

Section Accounts.

Variable which : list N -> option (list N).
Variable check_output : list N -> ProcResult.

(** The command one task hands to [subprocess.check_output]: its own, if
    the test before the [try] block lets it through. *)
Definition spawned (t : list N * list N) : list (list N) :=
  match available which (snd t) with
  | inr true => [snd t]
  | _ => []
  end.

(** What one task logs after its first line. *)
Definition closing_records (t : list N * list N) : list LogRecord :=
  match available which (snd t) with
  | inl _ => []
  | inr false => [NotFound (fst t)]
  | inr true =>
      match check_output (snd t) with
      | Returned _ secs => [Finished (fst t) secs]
      | TimeoutExpired _ => [TimedOut (fst t)]
      | Raised detail => [Failed (fst t) detail]
      end
  end.

(** All that one task logs. *)
Definition records (t : list N * list N) : list LogRecord :=
  Running (fst t) :: closing_records t.

End Accounts.

(** The program whose presence decides whether a tool of the table is
    run: the first word of its command. *)
Definition gate_program (name : str) : str :=
  if bool_decide (name = py "sublist3r") then py "python3" else name.

(** A code point that a well-formed text can hold: below [0x110000] and
    no surrogate. *)
Definition is_scalar (c : N) : bool :=
  (c <? 55296) || (57343 <? c) && (c <? 1114112).

(** ** A run on [example.com]

    The scenario of two fast tools that both print [www.example.com]:
    [assetfinder] and [subfinder] are installed and print that one line,
    no other tool of the table is installed. *)

Definition example_com : str := py "example.com".

Definition www_example_com : str := py "www.example.com".

Definition two_tools_which (exe : str) : option (list N) :=
  if bool_decide (exe ∈ [py "assetfinder"; py "subfinder"])
  then Some (py "/usr/bin/" ++ exe) else None.

Definition two_tools_check_output (cmd : str) : ProcResult :=
  Returned (list_byte_of_string "www.example.com" ++ [x0a]) 3.

(** * Properties *)

(** ** Strings *)

Section StringFacts.

Implicit Types (s p a b : list N) (c : N).

Lemma elem_of_rev {A} (x : A) (l : list A) : x ∈ rev l <-> x ∈ l.
Proof. rewrite !list_elem_of_In. symmetry. apply in_rev. Qed.

Lemma startswith_spec p s :
  startswith p s = true <-> exists post, s = p ++ post.
Proof.
  revert s. induction p as [|x p IH]; intros s; simpl.
  - split; [intros _; by exists s | done].
  - destruct s as [|y s]; simpl.
    + split; [done | intros [post H]; discriminate].
    + rewrite andb_true_iff, IH, N.eqb_eq. split.
      * intros [-> [post ->]]. by exists post.
      * intros [post H]. injection H as -> ->. eauto.
Qed.

(** [p in s] holds exactly when [s] is [p] with something before and
    something after it. *)
Lemma str_in_spec p s :
  str_in p s = true <-> exists pre post, s = pre ++ p ++ post.
Proof.
  induction s as [|y s IH].
  - simpl. rewrite orb_false_r, startswith_spec. split.
    + intros [post H]. by exists [], post.
    + intros (pre & post & H). destruct pre; [|discriminate].
      by exists post.
  - cbn [str_in]. rewrite orb_true_iff, startswith_spec, IH. split.
    + intros [[post H] | (pre & post & H)].
      * by exists [], post.
      * exists (y :: pre), post. by rewrite H.
    + intros (pre & post & H). destruct pre as [|z pre].
      * left. by exists post.
      * right. injection H as _ ->. by exists pre, post.
Qed.

Lemma lstrip_spec s :
  exists pre, s = pre ++ lstrip s /\ forallb isspace pre = true.
Proof.
  induction s as [|c s (pre & IH1 & IH2)]; simpl.
  - by exists [].
  - destruct (isspace c) eqn:Hc.
    + exists (c :: pre). simpl. rewrite Hc, IH2. split; [by f_equal | done].
    + by exists [].
Qed.

Lemma lstrip_head s c rest : lstrip s = c :: rest -> isspace c = false.
Proof.
  induction s as [|x s IH]; simpl; [done |].
  destruct (isspace x) eqn:Hx; [done |]. by intros [= <- _].
Qed.

Lemma rstrip_spec s :
  exists post, s = rstrip s ++ post /\ forallb isspace post = true.
Proof.
  unfold rstrip. destruct (lstrip_spec (rev s)) as (pre & H1 & H2).
  exists (rev pre). split.
  - rewrite <- rev_app_distr, <- H1. by rewrite rev_involutive.
  - rewrite forallb_forall in *. intros x Hx. apply H2. by apply in_rev.
Qed.

Lemma rstrip_last s rest c : rstrip s = rest ++ [c] -> isspace c = false.
Proof.
  unfold rstrip. intros H. apply (f_equal (@rev N)) in H.
  rewrite rev_involutive, rev_app_distr in H. simpl in H.
  by eapply lstrip_head.
Qed.

Lemma rstrip_head s c :
  isspace c = false -> exists rest, rstrip (c :: s) = c :: rest.
Proof.
  intros Hc. destruct (rstrip_spec (c :: s)) as (post & H1 & H2).
  destruct (rstrip (c :: s)) as [|x r] eqn:E.
  - simpl in H1. subst post. simpl in H2. by rewrite Hc in H2.
  - injection H1 as <- _. eauto.
Qed.

(** [strip] removes a run of whitespace at each end, and nothing else;
    what is left neither starts nor ends in whitespace. *)
Lemma strip_spec s :
  exists pre post,
    s = pre ++ strip s ++ post /\
    forallb isspace pre = true /\ forallb isspace post = true.
Proof.
  unfold strip. destruct (lstrip_spec s) as (pre & H1 & H2).
  destruct (rstrip_spec (lstrip s)) as (post & H3 & H4).
  exists pre, post. by rewrite <- H3.
Qed.

Lemma strip_first s c rest : strip s = c :: rest -> isspace c = false.
Proof.
  unfold strip. destruct (lstrip s) as [|x r] eqn:E.
  - by unfold rstrip.
  - pose proof (lstrip_head _ _ _ E) as Hx.
    destruct (rstrip_head r x Hx) as (r' & ->). by intros [= <- _].
Qed.

Lemma strip_last s rest c : strip s = rest ++ [c] -> isspace c = false.
Proof. unfold strip. apply rstrip_last. Qed.

Lemma strip_elem s c : c ∈ strip s -> c ∈ s.
Proof.
  destruct (strip_spec s) as (pre & post & H & _). intros Hc.
  rewrite H. set_solver.
Qed.

(** No line of [splitlines] holds a line boundary. *)
Lemma splitlines_from_no_break n : forall s cur line c,
  (length s <= n)%nat ->
  (forall x, x ∈ cur -> is_linebreak x = false) ->
  line ∈ splitlines_from cur s -> c ∈ line -> is_linebreak c = false.
Proof.
  induction n as [|n IH]; intros s cur line c Hlen Hcur.
  - destruct s; [|simpl in Hlen; lia]. simpl.
    destruct cur as [|y cur]; [by intros ?%elem_of_nil |].
    intros ->%list_elem_of_singleton Hc. apply Hcur.
    by apply elem_of_rev.
  - destruct s as [|x s]; simpl.
    { destruct cur as [|y cur]; [by intros ?%elem_of_nil |].
      intros ->%list_elem_of_singleton Hc. apply Hcur.
      by apply elem_of_rev. }
    simpl in Hlen. destruct (is_linebreak x) eqn:Hx.
    + intros [-> | Hin]%elem_of_cons Hc.
      { apply Hcur. by apply elem_of_rev. }
      destruct s as [|y s]; [by apply elem_of_nil in Hin |].
      simpl in Hlen.
      destruct ((x =? 13) && (y =? 10)).
      * eapply (IH s []); [lia | by intros ? ?%elem_of_nil | done..].
      * eapply (IH (y :: s) []);
          [simpl; lia | by intros ? ?%elem_of_nil | done..].
    + intros Hin Hc. eapply (IH s (x :: cur)); [lia | | done..].
      intros z [-> | Hz]%elem_of_cons; auto.
Qed.

Lemma splitlines_no_break s line c :
  line ∈ splitlines s -> c ∈ line -> is_linebreak c = false.
Proof.
  apply (splitlines_from_no_break (length s) s []); [lia |].
  by intros ? ?%elem_of_nil.
Qed.

End StringFacts.

(** ** The order on strings and [sorted] *)

Section OrderFacts.

Implicit Types (a b c : list N).

Lemma str_compare_eq a b : str_compare a b = Eq <-> a = b.
Proof.
  revert b. induction a as [|x a IH]; intros [|y b]; simpl; try done.
  destruct (N.compare_spec x y) as [-> | H | H].
  - rewrite IH. split; congruence.
  - split; [done | intros [= -> _]; lia].
  - split; [done | intros [= -> _]; lia].
Qed.

Lemma str_compare_antisym a b : str_compare b a = CompOpp (str_compare a b).
Proof.
  revert b. induction a as [|x a IH]; intros [|y b]; simpl; try done.
  rewrite (N.compare_antisym x y).
  destruct (N.compare x y); simpl; auto.
Qed.

Lemma str_compare_lt_trans a b c :
  str_compare a b = Lt -> str_compare b c = Lt -> str_compare a c = Lt.
Proof.
  revert b c. induction a as [|x a IH]; intros [|y b] [|z c]; simpl; try done.
  destruct (N.compare_spec x y) as [-> | Hxy | Hxy]; [| |done].
  - destruct (N.compare_spec y z) as [-> | Hyz | Hyz]; [| done..].
    apply IH.
  - destruct (N.compare_spec y z) as [-> | Hyz | Hyz]; [| |done]; intros _ _.
    + by apply N.compare_lt_iff in Hxy as ->.
    + assert (x < z) as ->%N.compare_lt_iff by lia. done.
Qed.

#[global] Instance str_le_total : Total str_le.
Proof.
  intros a b. unfold str_le. rewrite (str_compare_antisym a b).
  destruct (str_compare a b); simpl; [left | left | right]; congruence.
Qed.

#[global] Instance str_le_antisym : AntiSymm (=) str_le.
Proof.
  intros a b. unfold str_le. rewrite (str_compare_antisym a b).
  destruct (str_compare a b) eqn:E; simpl; try congruence.
  intros _ _. by apply str_compare_eq.
Qed.

#[global] Instance str_le_trans : Transitive str_le.
Proof.
  intros a b c. unfold str_le. intros Hab Hbc.
  destruct (str_compare a b) eqn:E1; [| |done].
  - apply str_compare_eq in E1 as ->. done.
  - destruct (str_compare b c) eqn:E2; [| |done].
    + apply str_compare_eq in E2 as <-. by rewrite E1.
    + by rewrite (str_compare_lt_trans a b c).
Qed.

#[global] Instance str_lt_trans : Transitive str_lt.
Proof. intros a b c. apply str_compare_lt_trans. Qed.

Lemma str_lt_le_ne a b : str_lt a b <-> str_le a b /\ a <> b.
Proof.
  unfold str_lt, str_le. rewrite <- str_compare_eq.
  destruct (str_compare a b); split; try done; intros []; congruence.
Qed.

Lemma str_lt_irrefl a : ~ str_lt a a.
Proof. rewrite str_lt_le_ne. by intros []. Qed.

Lemma sorted_Permutation (xs : list (list N)) : sorted xs ≡ₚ xs.
Proof. apply merge_sort_Permutation. Qed.

Lemma sorted_StronglySorted (xs : list (list N)) :
  StronglySorted str_le (sorted xs).
Proof. apply StronglySorted_merge_sort; apply _. Qed.

(** [sorted] does not depend on the order of its argument. *)
Lemma sorted_order_irrelevant (xs ys : list (list N)) :
  xs ≡ₚ ys -> sorted xs = sorted ys.
Proof.
  intros H. apply (StronglySorted_unique str_le).
  - apply sorted_StronglySorted.
  - apply sorted_StronglySorted.
  - by rewrite !sorted_Permutation.
Qed.

Lemma StronglySorted_le_lt (l : list (list N)) :
  NoDup l -> StronglySorted str_le l -> StronglySorted str_lt l.
Proof.
  induction 2 as [|x l Hl IH Hx]; constructor.
  - apply IH. by eapply NoDup_cons_1_2.
  - apply NoDup_cons in H as [Hnin _].
    rewrite Forall_forall in *. intros y Hy.
    apply str_lt_le_ne. split; [by apply Hx |]. by intros ->.
Qed.

(** Without repeated elements, [sorted] is strictly ascending. *)
Lemma sorted_strict (xs : list (list N)) :
  NoDup xs -> StronglySorted str_lt (sorted xs).
Proof.
  intros H. apply StronglySorted_le_lt; [| apply sorted_StronglySorted].
  by rewrite sorted_Permutation.
Qed.

End OrderFacts.

(** ** The result collector *)

Section CollectorFacts.

Implicit Types (domain output line : list N) (q : list (list N * list N)).

Lemma truthy_spec (s : list N) : truthy s = true <-> s <> [].
Proof. by destruct s. Qed.

Lemma elem_of_add_line domain (acc : gset (list N)) raw line :
  line ∈ add_line domain acc raw <->
  line ∈ acc \/
  (line = strip raw /\ line <> [] /\ str_in domain line = true).
Proof.
  unfold add_line.
  destruct (truthy (strip raw) && str_in domain (strip raw)) eqn:E.
  - apply andb_true_iff in E as [E1%truthy_spec E2].
    rewrite elem_of_union, elem_of_singleton. split.
    + intros [? | ->]; [by left | by right].
    + intros [? | (-> & _)]; [by left | by right].
  - split; [by left |]. intros [? | (-> & H1%truthy_spec & H2)]; [done |].
    by rewrite H1, H2 in E.
Qed.

Lemma elem_of_foldl_add_line domain (raws : list (list N))
    (acc : gset (list N)) line :
  line ∈ foldl (add_line domain) acc raws <->
  line ∈ acc \/
  exists raw, raw ∈ raws /\ line = strip raw /\
              line <> [] /\ str_in domain line = true.
Proof.
  revert acc. induction raws as [|r raws IH]; intros acc; simpl.
  - split; [by left |]. intros [? | (raw & []%elem_of_nil & _)]. done.
  - rewrite IH, elem_of_add_line. split.
    + intros [[? | ?] | (raw & ? & ?)]; [by left | right | right].
      * exists r. split; [by left | done].
      * exists raw. split; [by right | done].
    + intros [? | (raw & [-> | ?]%elem_of_cons & ?)].
      * by left; left.
      * by left; right.
      * right. by exists raw.
Qed.

Lemma elem_of_add_output domain (acc : gset (list N)) output line :
  line ∈ add_output domain acc output <->
  line ∈ acc \/ kept_line domain output line.
Proof. apply elem_of_foldl_add_line. Qed.

Lemma elem_of_foldl_add_output domain q (acc : gset (list N)) line :
  line ∈ foldl (fun all_results item =>
                  add_output domain all_results (snd item)) acc q <->
  line ∈ acc \/
  exists name output, (name, output) ∈ q /\ kept_line domain output line.
Proof.
  revert acc. induction q as [|[n o] q IH]; intros acc; simpl.
  - split; [by left |]. intros [? | (? & ? & []%elem_of_nil & _)]. done.
  - rewrite IH, elem_of_add_output. split.
    + intros [[? | ?] | (name & output & ? & ?)]; [by left | right | right].
      * exists n, o. split; [by left | done].
      * exists name, output. split; [by right | done].
    + intros [? | (name & output & [[= -> ->] | ?]%elem_of_cons & ?)].
      * by left; left.
      * by left; right.
      * right. by exists name, output.
Qed.

(** What [all_results] holds once the queue is empty. *)
Lemma elem_of_collect domain q line :
  line ∈ collect domain q <->
  exists name output, (name, output) ∈ q /\ kept_line domain output line.
Proof.
  unfold collect. rewrite elem_of_foldl_add_output.
  split; [intros [[]%not_elem_of_empty | ?]; done | by right].
Qed.

(** The set depends on the items of the queue, not on their order. *)
Lemma collect_Permutation domain q1 q2 :
  q1 ≡ₚ q2 -> collect domain q1 = collect domain q2.
Proof.
  intros H. apply set_eq. intros line. rewrite !elem_of_collect.
  by setoid_rewrite H.
Qed.

Lemma iterates_NoDup (s : gset (list N)) order : iterates s order -> NoDup order.
Proof. intros ->. apply NoDup_elements. Qed.

Lemma iterates_elem_of (s : gset (list N)) order line :
  iterates s order -> line ∈ sorted order <-> line ∈ s.
Proof. intros H. by rewrite sorted_Permutation, H, elem_of_elements. Qed.

Lemma iterates_elements (s : gset (list N)) : iterates s (elements s).
Proof. by unfold iterates. Qed.

(** Whatever order the set hands its elements in, [sorted] returns the
    same list. *)
Lemma iterates_sorted (s : gset (list N)) order :
  iterates s order -> sorted order = sorted (elements s).
Proof. apply sorted_order_irrelevant. Qed.

Lemma NoDup_filter_eq_length (l : list (list N)) (x : list N) :
  NoDup l -> x ∈ l -> length (filter (fun y => y = x) l) = 1%nat.
Proof.
  induction 1 as [|y l Hy Hl IH]; [by intros ?%elem_of_nil |].
  rewrite filter_cons. intros [<- | Hx]%elem_of_cons.
  - rewrite decide_True by done. simpl. f_equal.
    apply length_zero_iff_nil.
    destruct (filter (fun y => y = x) l) as [|z zs] eqn:E; [done |].
    assert (Hz : z ∈ filter (fun y => y = x) l) by (rewrite E; left).
    apply list_elem_of_filter in Hz as [-> ?]. done.
  - rewrite decide_False by (intros ->; done). auto.
Qed.

End CollectorFacts.

(** ** The ETA *)

Section EstimateFacts.

Lemma foldl_add_acc (xs : list Z) (a : Z) :
  foldl Z.add a xs = (a + py_sum xs)%Z.
Proof.
  unfold py_sum. revert a. induction xs as [|x xs IH]; intros a; simpl.
  - lia.
  - rewrite (IH (a + x)%Z), (IH (0 + x)%Z). lia.
Qed.

Lemma py_sum_cons (x : Z) (xs : list Z) : py_sum (x :: xs) = (x + py_sum xs)%Z.
Proof. unfold py_sum at 1. simpl. by rewrite foldl_add_acc. Qed.

Lemma py_sum_app (xs ys : list Z) : py_sum (xs ++ ys) = (py_sum xs + py_sum ys)%Z.
Proof.
  induction xs as [|x xs IH]; simpl; [done |].
  rewrite !py_sum_cons, IH. lia.
Qed.

Lemma py_sum_Permutation (xs ys : list Z) : xs ≡ₚ ys -> py_sum xs = py_sum ys.
Proof.
  induction 1 as [| x xs ys _ IH | x y xs | xs ys zs _ IH1 _ IH2].
  - done.
  - by rewrite !py_sum_cons, IH.
  - rewrite !py_sum_cons. lia.
  - congruence.
Qed.

Lemma estimate_total_time_cons (t : tool) (ts : list tool) :
  estimate_total_time (t :: ts) = (estimate_of (fst t) + estimate_total_time ts)%Z.
Proof. unfold estimate_total_time. simpl. apply py_sum_cons. Qed.

Lemma estimate_total_time_app (A B : list tool) :
  estimate_total_time (A ++ B) = (estimate_total_time A + estimate_total_time B)%Z.
Proof. unfold estimate_total_time. rewrite map_app. apply py_sum_app. Qed.

Lemma estimate_total_time_Permutation (A B : list tool) :
  A ≡ₚ B -> estimate_total_time A = estimate_total_time B.
Proof.
  intros H. unfold estimate_total_time. apply py_sum_Permutation.
  change (map ?f ?l) with (f <$> l). by rewrite H.
Qed.

Lemma estimate_of_listed (name : list N) (secs : Z) :
  TOOL_ESTIMATES !! name = Some secs -> estimate_of name = secs.
Proof. unfold estimate_of. by intros ->. Qed.

Lemma estimate_of_absent (name : list N) :
  TOOL_ESTIMATES !! name = None -> estimate_of name = 10%Z.
Proof. unfold estimate_of. by intros ->. Qed.

End EstimateFacts.

(** ** The availability test and the task runner *)

Section SplitFacts.

Implicit Types (s cur cmd exe : list N).

Lemma split_from_nil cur s :
  split_from cur s = [] -> cur = [] /\ forallb isspace s = true.
Proof.
  revert cur. induction s as [|c s IH]; intros cur; simpl.
  - by destruct cur.
  - destruct (isspace c) eqn:Hc.
    + destruct cur; [|done]. intros H. by destruct (IH [] H).
    + intros H. by destruct (IH _ H).
Qed.

Lemma rev_ne_nil {A} (x : A) (l : list A) : rev (x :: l) <> [].
Proof. simpl. by destruct (rev l). Qed.

Lemma split_from_head cur s exe l :
  forallb (fun c => negb (isspace c)) cur = true ->
  split_from cur s = exe :: l ->
  exists ws tok rest,
    s = ws ++ tok ++ rest /\
    forallb isspace ws = true /\
    (cur <> [] -> ws = []) /\
    exe = rev cur ++ tok /\ exe <> [] /\
    forallb (fun c => negb (isspace c)) tok = true /\
    match rest with [] => True | c :: _ => isspace c = true end.
Proof.
  revert cur. induction s as [|c s IH]; intros cur Hcur; simpl.
  - destruct cur as [|x cur]; [done |]. intros [= <- _].
    exists [], [], []. split_and!; rewrite ?app_nil_r; try done.
    apply (rev_ne_nil x cur).
  - destruct (isspace c) eqn:Hc.
    + destruct cur as [|x cur].
      * intros H.
        destruct (IH [] Hcur H) as (ws & tok & rest & -> & ? & _ & ? & ? & ? & ?).
        exists (c :: ws), tok, rest. simpl. rewrite Hc.
        split_and!; done.
      * intros [= <- _]. exists [], [], (c :: s).
        split_and!; rewrite ?app_nil_r; try done.
        apply (rev_ne_nil x cur).
    + intros H.
      assert (Hcur' : forallb (fun c => negb (isspace c)) (c :: cur) = true).
      { simpl. by rewrite Hc, Hcur. }
      destruct (IH (c :: cur) Hcur' H)
        as (ws & tok & rest & -> & ? & Hws & -> & ? & Htok & ?).
      rewrite (Hws ltac:(done)). exists [], (c :: tok), rest.
      split_and!; try done.
      * simpl. by rewrite <- app_assoc.
      * simpl. by rewrite Hc, Htok.
Qed.

(** The first element of [cmd.split()] is the first token of [cmd]. *)
Lemma split_first_token cmd exe l : split cmd = exe :: l -> first_token cmd exe.
Proof.
  intros H.
  destruct (split_from_head [] cmd exe l eq_refl H)
    as (ws & tok & rest & ? & ? & _ & -> & ? & ? & ?).
  by exists ws, rest.
Qed.

(** A command has at most one first token. *)
Lemma first_token_unique cmd exe1 exe2 :
  first_token cmd exe1 -> first_token cmd exe2 -> exe1 = exe2.
Proof.
  intros (ws1 & r1 & -> & Hws1 & Hne1 & He1 & Hr1)
         (ws2 & r2 & E & Hws2 & Hne2 & He2 & Hr2).
  revert ws2 E Hws2. induction ws1 as [|c ws1 IH]; intros ws2 E Hws2.
  - destruct ws2 as [|c ws2].
    + clear Hne1 Hne2 Hws1 Hws2. simpl in E. revert exe2 E He2.
      induction exe1 as [|x e1 IH]; intros [|y e2] E He2; simpl in *.
      * done.
      * subst r1. apply andb_true_iff in He2 as [Hy _].
        by rewrite Hr1 in Hy.
      * subst r2. apply andb_true_iff in He1 as [Hx _].
        by rewrite Hr2 in Hx.
      * injection E as -> E.
        apply andb_true_iff in He1 as [_ He1].
        apply andb_true_iff in He2 as [_ He2].
        f_equal. by apply IH.
    + destruct exe1 as [|x e1]; [done |]. simpl in *.
      injection E as -> _.
      apply andb_true_iff in He1 as [Hx _].
      apply andb_true_iff in Hws2 as [Hc _]. by rewrite Hc in Hx.
  - simpl in Hws1. apply andb_true_iff in Hws1 as [Hc Hws1].
    destruct ws2 as [|c2 ws2].
    + destruct exe2 as [|y e2]; [done |]. simpl in *.
      injection E as -> _.
      apply andb_true_iff in He2 as [Hy _]. by rewrite Hc in Hy.
    + simpl in *. injection E as _ E.
      apply andb_true_iff in Hws2 as [_ Hws2]. by eapply IH.
Qed.

(** [cmd.split()] is empty exactly when [cmd] is whitespace throughout. *)
Lemma split_nil_iff cmd : split cmd = [] <-> forallb isspace cmd = true.
Proof.
  split; [by intros [_ ?]%split_from_nil |].
  unfold split. induction cmd as [|c cmd IH]; simpl; [done |].
  intros [-> ?]%andb_true_iff. auto.
Qed.

Lemma split_nonspace cmd :
  (exists c, c ∈ cmd /\ isspace c = false) ->
  exists exe l, split cmd = exe :: l.
Proof.
  intros (c & Hin & Hc). destruct (split cmd) as [|exe l] eqn:E; [|eauto].
  apply split_nil_iff in E. rewrite forallb_forall in E.
  apply list_elem_of_In in Hin. rewrite (E c Hin) in Hc. done.
Qed.

End SplitFacts.

Section RunnerFacts.

Variable which : list N -> option (list N).
Variable check_output : list N -> ProcResult.

Implicit Types (name cmd : list N) (w : World).

Lemma available_split cmd exe l :
  split cmd = exe :: l ->
  available which cmd = inr (bool_decide (which exe <> None)).
Proof. unfold available. by intros ->. Qed.

Lemma available_IndexError cmd :
  available which cmd = inl IndexError <-> forallb isspace cmd = true.
Proof.
  rewrite <- split_nil_iff. unfold available.
  destruct (split cmd); split; congruence.
Qed.

Lemma outcome_emit r w : outcome (emit r w) = status_of r.
Proof. unfold outcome, emit. simpl. by rewrite last_snoc. Qed.

(** The four ways [run_tool] goes on once the command has a first
    token, and the one way it goes when it has none. *)
Lemma run_tool_cases name cmd w :
  let w0 := emit (Running name) w in
  let r := run_tool which check_output name cmd w in
  (available which cmd = inl IndexError /\ r = (Uncaught IndexError, w0)) \/
  (available which cmd = inr false /\ r = (Normal, emit (NotFound name) w0)) \/
  (available which cmd = inr true /\
   ((exists stdout secs,
       check_output cmd = Returned stdout secs /\
       r = (Normal, emit (Finished name secs)
                      (put (name, decode stdout) (invoke cmd w0)))) \/
    (exists partial,
       check_output cmd = TimeoutExpired partial /\
       r = (Normal, emit (TimedOut name) (invoke cmd w0))) \/
    (exists detail,
       check_output cmd = Raised detail /\
       r = (Normal, emit (Failed name detail) (invoke cmd w0))))).
Proof.
  unfold run_tool, run_tool_body. cbv zeta.
  destruct (available which cmd) as [[] | []] eqn:E.
  - by left.
  - unfold available in E. by destruct (split cmd).
  - right; right. split; [done |].
    destruct (check_output cmd) as [stdout secs | partial | detail]; eauto 6.
  - right; left. done.
Qed.

End RunnerFacts.

(** ** The two phases *)

(** Membership in lists put together with [++] and [::]. *)
Ltac in_lists :=
  repeat match goal with
         | H : _ ∈ _ ++ _ |- _ => apply elem_of_app in H as [H | H]
         | H : _ ∈ _ :: _ |- _ => apply elem_of_cons in H as [H | H]
         | H : _ ∈ [] |- _ => by apply elem_of_nil in H
         end;
  subst; repeat (rewrite elem_of_app || rewrite elem_of_cons); tauto.

Section PhaseFacts.

Variable which : list N -> option (list N).
Variable check_output : list N -> ProcResult.

Local Abbreviation pool_steps := (pool_steps which check_output).
Local Abbreviation phase_run := (phase_run which check_output).
Local Abbreviation main_phases := (main_phases which check_output).
Local Abbreviation delivered := (delivered which check_output).

(** What a call adds to the queue when it ends. *)
Lemma run_tool_body_queue name cmd w :
  output_q (snd (run_tool_body which check_output name cmd w))
  = output_q w ++ delivered (name, cmd).
Proof.
  unfold run_tool_body, delivered. simpl.
  destruct (available which cmd) as [e | []]; simpl.
  - by rewrite app_nil_r.
  - by destruct (check_output cmd); simpl; rewrite ?app_nil_r.
  - by rewrite app_nil_r.
Qed.

(** Every event of a pool is about one of its calls. *)
Lemma pool_steps_events k p tr p' e :
  pool_steps k p tr p' -> e ∈ tr -> tool_of e ∈ pending p ++ running p.
Proof.
  induction 1 as [p | p e' p1 tr p2 Hstep _ IH]; [by intros ?%elem_of_nil |].
  intros [-> | Hin]%elem_of_cons.
  - destruct Hstep; simpl; in_lists.
  - specialize (IH Hin). destruct Hstep; simpl in *; in_lists.
Qed.

(** A pool that is left with nothing pending and nothing running has
    ended every call it had. *)
Lemma pool_steps_all_ended k p tr p' t :
  pool_steps k p tr p' -> pending p' = [] -> running p' = [] ->
  t ∈ pending p ++ running p -> Ended t ∈ tr.
Proof.
  induction 1 as [p | p e' p1 tr p2 Hstep _ IH]; intros Hp Hr Ht.
  - rewrite Hp, Hr in Ht. by apply elem_of_nil in Ht.
  - specialize (IH Hp Hr). destruct Hstep; simpl in *.
    + right. apply IH. in_lists.
    + destruct (decide (t = t0)) as [-> | Hne]; [left |].
      right. apply IH. in_lists.
Qed.

(** The queue such a pool leaves: what was there, and what each of its
    calls delivers, in the order in which the calls ended. *)
Lemma pool_steps_queue k p tr p' :
  pool_steps k p tr p' -> pending p' = [] -> running p' = [] ->
  output_q (world p')
  ≡ₚ output_q (world p) ++ flat_map delivered (pending p ++ running p).
Proof.
  induction 1 as [p | p e' p1 tr p2 Hstep _ IH]; intros Hp Hr.
  - rewrite Hp, Hr. simpl. by rewrite app_nil_r.
  - rewrite (IH Hp Hr). destruct Hstep; simpl.
    + apply Permutation_app_head.
      rewrite !flat_map_app. simpl. rewrite app_nil_r.
      rewrite (Permutation_app_comm (delivered t)).
      by rewrite <- !app_assoc.
    + rewrite run_tool_body_queue. destruct t as [name cmd]. simpl.
      rewrite <- app_assoc. apply Permutation_app_head.
      rewrite !flat_map_app. simpl.
      rewrite !(app_assoc (flat_map delivered ts)).
      by rewrite app_assoc, (Permutation_app_comm (delivered _)), <- app_assoc.
Qed.

Lemma phase_run_queue k tasks w tr w' :
  phase_run k tasks w tr w' ->
  output_q w' ≡ₚ output_q w ++ flat_map delivered tasks.
Proof.
  intros H. apply pool_steps_queue in H; [| done..].
  simpl in H. by rewrite app_nil_r in H.
Qed.

Lemma fast_slow_all_tools domain :
  fast_phase domain ++ slow_phase domain ≡ₚ all_tools domain.
Proof. apply filter_app_complement. Qed.

(** The queue [main] collects from: what the tools of the table deliver,
    in some order. *)
Lemma main_phases_queue domain tr w :
  main_phases domain tr w ->
  output_q w ≡ₚ flat_map delivered (all_tools domain).
Proof.
  intros [tr1 w1 tr2 w2 H1 H2].
  apply phase_run_queue in H1, H2. cbn [output_q emit empty_world] in H1, H2.
  rewrite H2, H1. cbn [app]. rewrite <- flat_map_app.
  by rewrite fast_slow_all_tools.
Qed.

(** Calls made one at a time are a run of a pool with a worker. *)
Lemma pool_steps_in_turn k tasks w :
  (0 < k)%nat ->
  phase_run k tasks w (trace_in_turn tasks)
    (run_in_turn which check_output tasks w).
Proof.
  intros Hk. unfold phase_run. revert w.
  induction tasks as [|t tasks IH]; intros w; simpl.
  - constructor.
  - eapply pool_steps_cons; [by apply pool_start |].
    eapply pool_steps_cons; [apply (pool_end _ _ _ t tasks [] []) |].
    apply IH.
Qed.

(** [main] can always run its two phases to their end. *)
Lemma main_phases_in_turn domain :
  main_phases domain
    (trace_in_turn (fast_phase domain) ++ trace_in_turn (slow_phase domain))
    (run_in_turn which check_output (slow_phase domain)
       (emit (PhaseHeader 2 (estimate_total_time (slow_phase domain)))
          (run_in_turn which check_output (fast_phase domain)
             (emit (PhaseHeader 1 (estimate_total_time (fast_phase domain)))
                empty_world)))).
Proof. econstructor; apply pool_steps_in_turn; lia. Qed.

End PhaseFacts.

(** ** Paths *)

Section PathFacts.

Implicit Types (p s : list N) (f : N -> bool).

Lemma takewhile_dropwhile f s : takewhile f s ++ dropwhile f s = s.
Proof.
  induction s as [|c s IH]; simpl; [done |].
  destruct (f c); simpl; [by rewrite IH | done].
Qed.

Lemma dropwhile_length f s : (length (dropwhile f s) <= length s)%nat.
Proof.
  induction s as [|c s IH]; simpl; [done |]. destruct (f c); simpl; lia.
Qed.

Lemma dropwhile_nil_iff f s : dropwhile f s = [] <-> forallb f s = true.
Proof.
  induction s as [|c s IH]; simpl; [done |].
  destruct (f c); simpl; [done |]. split; done.
Qed.

Lemma rev_nil_iff {A} (l : list A) : rev l = [] <-> l = [].
Proof.
  split; [| by intros ->]. intros H.
  apply (f_equal (@rev A)) in H. by rewrite rev_involutive in H.
Qed.

Lemma forallb_rev f s : forallb f (rev s) = forallb f s.
Proof.
  apply eq_true_iff_eq. rewrite !forallb_forall.
  split; intros H x Hx; apply H; by apply in_rev in Hx || apply in_rev.
Qed.

(** The two parts of [os.path.split(p)] are not longer than [p]. *)
Lemma path_split_length p :
  (length (fst (path_split p)) + length (snd (path_split p)) <= length p)%nat.
Proof.
  unfold path_split. cbn [fst snd].
  set (f := fun c => negb (c =? SEP)).
  pose proof (f_equal (@length N) (takewhile_dropwhile f (rev p))) as H.
  rewrite length_app, length_rev in H.
  assert (Hr : (length (rstrip_sep (rev (dropwhile f (rev p))))
                <= length (dropwhile f (rev p)))%nat).
  { unfold rstrip_sep. rewrite length_rev, rev_involutive.
    apply dropwhile_length. }
  destruct (truthy _ && negb _); rewrite !length_rev; [lia |].
  lia.
Qed.

(** A path has an empty [dirname] exactly when it has no slash. *)
Lemma dirname_nil_iff p : dirname p = [] <-> SEP ∉ p.
Proof.
  unfold dirname, path_split. cbn [fst].
  set (f := fun c => negb (c =? SEP)).
  set (head := rev (dropwhile f (rev p))).
  assert (Hhead : head = [] <-> SEP ∉ p).
  { unfold head. rewrite rev_nil_iff, dropwhile_nil_iff, forallb_rev.
    rewrite forallb_forall. split.
    - intros H Hin%list_elem_of_In. specialize (H _ Hin). by unfold f in H.
    - intros H x Hx. unfold f. apply negb_true_iff, N.eqb_neq.
      intros ->. by apply H, list_elem_of_In. }
  destruct (truthy head && negb (forallb (N.eqb SEP) head)) eqn:E; [|done].
  apply andb_true_iff in E as [E1 E2]. rewrite <- Hhead.
  split; [| intros ->; done]. unfold rstrip_sep.
  rewrite rev_nil_iff, dropwhile_nil_iff, forallb_rev. intros H.
  by rewrite H in E2.
Qed.

End PathFacts.

(** ** Text files *)

Section TextFacts.

Implicit Types (l cur rest : list N) (lines : list (list N)).

Lemma text_lines_from_line cur l rest :
  10 ∉ l ->
  text_lines_from cur (l ++ 10 :: rest)
  = (rev cur ++ l) :: text_lines_from [] rest.
Proof.
  revert cur. induction l as [|c l IH]; intros cur Hl; simpl.
  - by rewrite app_nil_r.
  - apply not_elem_of_cons in Hl as [Hc Hl].
    apply not_eq_sym, N.eqb_neq in Hc. rewrite Hc, IH by done.
    simpl. by rewrite <- app_assoc.
Qed.

(** A file written line by line reads back as these lines, provided no
    line holds a newline. *)
Lemma text_lines_of_lines lines :
  Forall (fun l => 10 ∉ l) lines -> text_lines (text_of_lines lines) = lines.
Proof.
  unfold text_lines, text_of_lines.
  induction 1 as [|l lines Hl _ IH]; simpl; [done |].
  rewrite <- app_assoc. simpl. rewrite text_lines_from_line by done.
  simpl. by rewrite IH.
Qed.

(** On a text whose only line boundaries are newlines, [splitlines]
    cuts at the newlines and nowhere else. *)
Lemma splitlines_from_newlines_only cur (s : list N) :
  (forall c, c ∈ s -> is_linebreak c = true -> c = 10) ->
  splitlines_from cur s = text_lines_from cur s.
Proof.
  revert cur. induction s as [|c s IH]; intros cur Hs; [done |].
  assert (Hs' : forall c, c ∈ s -> is_linebreak c = true -> c = 10).
  { intros x Hx. apply Hs. by right. }
  cbn [splitlines_from text_lines_from].
  destruct (is_linebreak c) eqn:Hc.
  - rewrite (Hs c ltac:(left) Hc). cbn [N.eqb Pos.eqb andb].
    f_equal. destruct s as [|c' s']; [done |]. by apply IH.
  - destruct (N.eqb_spec c 10) as [-> |]; [done |]. by apply IH.
Qed.

Lemma splitlines_newlines_only (s : list N) :
  (forall c, c ∈ s -> is_linebreak c = true -> c = 10) ->
  splitlines s = text_lines s.
Proof. apply splitlines_from_newlines_only. Qed.

(** What the collector keeps is fit to be a line of a file: it is not
    empty, starts with a character that is not whitespace, and holds no
    line boundary. *)
Lemma kept_line_shape domain output line :
  kept_line domain output line ->
  (exists c rest, line = c :: rest /\ isspace c = false) /\
  (forall c, c ∈ line -> is_linebreak c = false).
Proof.
  intros (raw & Hraw & -> & Hne & _). split.
  - destruct (strip raw) as [|c rest] eqn:E; [done |].
    exists c, rest. split; [done |]. by eapply strip_first.
  - intros c Hc%strip_elem. by eapply splitlines_no_break.
Qed.

Lemma collect_shape domain (q : list (list N * list N)) line :
  line ∈ collect domain q ->
  (exists c rest, line = c :: rest /\ isspace c = false) /\
  (forall c, c ∈ line -> is_linebreak c = false).
Proof.
  intros (name & output & _ & H)%elem_of_collect.
  by eapply kept_line_shape.
Qed.

Lemma collect_no_newline domain (q : list (list N * list N)) line :
  line ∈ collect domain q -> 10 ∉ line.
Proof.
  intros [_ H]%collect_shape Hin. by specialize (H _ Hin).
Qed.

End TextFacts.

(** ** Creating the directory and writing the file *)

Section OutputFacts.

Context {FS : Type}.
Variable fs_exists : list N -> FS -> bool.
Variable fs_isdir : list N -> FS -> bool.
Variable fs_mkdir : list N -> FS -> Z + FS.
Variable fs_open_w : list N -> FS -> Z + FS.
Variable fs_write : list N -> list N -> FS -> FS.
Variable fs_read : list N -> FS -> option (list N).

Local Abbreviation makedirs_n :=
  (makedirs_bounded fs_exists fs_isdir fs_mkdir).
Local Abbreviation makedirs' := (makedirs fs_exists fs_isdir fs_mkdir).
Local Abbreviation mkdir_ok := (mkdir_exist_ok fs_isdir fs_mkdir).

(** The bound of [makedirs] is never reached: [os.makedirs] returns or
    raises on every path. *)
Lemma makedirs_bounded_total bound name fs :
  (length name < bound)%nat ->
  exists r, makedirs_n bound name fs = Some r.
Proof.
  revert name fs. induction bound as [|bound IH]; intros name fs Hlen; [lia |].
  cbn [makedirs_bounded].
  pose proof (path_split_length name) as H1.
  destruct (path_split name) as [head1 tail1]. cbn [fst snd] in H1.
  pose proof (path_split_length head1) as H2.
  assert (exists head tail,
    (if truthy tail1 then (head1, tail1) else path_split head1) = (head, tail)
    /\ (truthy tail = true -> length head < length name)%nat)
    as (head & tail & -> & Hhead).
  { destruct tail1 as [|c tail1]; simpl.
    - destruct (path_split head1) as [head2 tail2]. cbn [fst snd] in H2.
      exists head2, tail2. split; [done |].
      destruct tail2; [done |]. simpl in *. lia.
    - exists head1, (c :: tail1). split; [done |]. simpl in *. lia. }
  destruct (truthy head && truthy tail && negb (fs_exists head fs)) eqn:E;
    [| eauto].
  apply andb_true_iff in E as [[_ Htail]%andb_true_iff _].
  destruct (IH head fs) as [[c fs1] ->]; [specialize (Hhead Htail); lia |].
  destruct c as [|e]; [| destruct (is_FileExistsError e)];
    try destruct (bool_decide _); eauto.
Qed.

Lemma makedirs_total name fs : exists r, makedirs' name fs = Some r.
Proof. apply makedirs_bounded_total. lia. Qed.

(** On the empty path [os.makedirs] goes straight to [os.mkdir]. *)
Lemma makedirs_empty fs : makedirs' [] fs = Some (mkdir_ok [] fs).
Proof. reflexivity. Qed.

(** The writes of the loop append to what the file holds. *)
Lemma foldl_write_read p lines fs content :
  (forall p s fs c,
     fs_read p fs = Some c -> fs_read p (fs_write p s fs) = Some (c ++ s)) ->
  fs_read p fs = Some content ->
  fs_read p
    (foldl (fun fs subdomain => fs_write p (subdomain ++ [10]) fs) fs lines)
  = Some (content ++ text_of_lines lines).
Proof.
  intros Hwrite. revert fs content.
  induction lines as [|l lines IH]; intros fs content Hread; simpl.
  - by rewrite app_nil_r.
  - erewrite IH; [| by apply Hwrite].
    unfold text_of_lines. simpl. by rewrite <- !app_assoc.
Qed.

End OutputFacts.

(** ** The file system [FlatFS] *)

(** [FlatFS] truncates on [open(path, "w")], appends on [write], and
    has no directory at the empty path. *)
Lemma FlatFS_open_w_truncates (p : list N) (fs fs' : FlatFS.t) :
  FlatFS.open_w p fs = inr fs' -> FlatFS.read p fs' = Some [].
Proof.
  unfold FlatFS.open_w, FlatFS.read.
  destruct (negb (truthy p)); [done |].
  destruct (FlatFS.isdir p fs); [done |].
  destruct (FlatFS.parent_ok p fs); [| done].
  intros [= <-]. by rewrite lookup_insert_eq.
Qed.

Lemma FlatFS_write_appends (p s : list N) (fs : FlatFS.t) (content : list N) :
  FlatFS.read p fs = Some content ->
  FlatFS.read p (FlatFS.write p s fs) = Some (content ++ s).
Proof.
  unfold FlatFS.read, FlatFS.write.
  destruct (fs !! p) as [[c |] |] eqn:E; try done.
  intros [= ->]. by rewrite lookup_insert_eq.
Qed.

Lemma FlatFS_mkdir_empty_path (fs : FlatFS.t) : FlatFS.mkdir [] fs = inl ENOENT.
Proof. reflexivity. Qed.

Lemma FlatFS_isdir_empty_path (fs : FlatFS.t) : FlatFS.isdir [] fs = false.
Proof. reflexivity. Qed.

(** On [FlatFS], [os.makedirs] creates the directories that are missing
    and the file is written into them. *)
Example save_creates_missing_directories :
  save FlatFS.exists_ FlatFS.isdir FlatFS.mkdir FlatFS.open_w FlatFS.write
    (py "out/subs/example.txt") [py "b.example.com"; py "a.example.com"] ∅
  = Some (Normal,
          {[ py "out" := None;
             py "out/subs" := None;
             py "out/subs/example.txt"
               := Some (py "a.example.com" ++ [10]
                        ++ py "b.example.com" ++ [10]) ]}).
Proof. by vm_compute. Qed.

(** ** The file [main] leaves *)

Section FinishFacts.

Context {FS : Type}.
Variable fs_exists : list N -> FS -> bool.
Variable fs_isdir : list N -> FS -> bool.
Variable fs_mkdir : list N -> FS -> Z + FS.
Variable fs_open_w : list N -> FS -> Z + FS.
Variable fs_write : list N -> list N -> FS -> FS.
Variable fs_read : list N -> FS -> option (list N).

(** When [main] ends normally, the file holds the sorted elements of the
    result set, a line each, on a file system where [open(path, "w")]
    gives an empty file and [write] adds at the end. *)
Lemma main_finish_file (domain output_file : list N) (w w' : World)
    (fs fs' : FS) :
  (forall p fs fs', fs_open_w p fs = inr fs' -> fs_read p fs' = Some []) ->
  (forall p s fs content,
     fs_read p fs = Some content ->
     fs_read p (fs_write p s fs) = Some (content ++ s)) ->
  main_finish fs_exists fs_isdir fs_mkdir fs_open_w fs_write
    domain output_file w fs Normal w' fs' ->
  exists order,
    iterates (collect domain (output_q w)) order /\
    fs_read output_file fs' = Some (text_of_lines (sorted order)).
Proof.
  intros Hopen Hwrite. inversion 1 as [order fs2 Hit Hsave |]; subst.
  exists order. split; [done |]. unfold save in Hsave.
  destruct (makedirs _ _ _ _ _) as [[[|e] fs1] |]; [| done..].
  unfold write_results in Hsave.
  destruct (fs_open_w output_file fs1) as [| fs3] eqn:E; [done |].
  injection Hsave as <-.
  by rewrite (foldl_write_read fs_write fs_read _ _ _ [] Hwrite
                (Hopen _ _ _ E)).
Qed.

End FinishFacts.

(** * The claims of the specification *)

(** C1 as stated fails: [splitlines] cuts at a vertical tab too, so of
    the output [a.x.org], vertical tab, [b.x.org], newline the collector
    keeps [a.x.org], which is no line of that output cut at its newlines
    and stripped. *)
Lemma line_cut_at_a_vertical_tab_is_kept :
  py "a.x.org"
  ∈ collect (py "x.org")
      [ (py "amass", py "a.x.org" ++ [11] ++ py "b.x.org" ++ [10]) ] /\
  ~ (exists name output,
       (name, output)
       ∈ [ (py "amass", py "a.x.org" ++ [11] ++ py "b.x.org" ++ [10]) ] /\
       kept_line_cut_at_newlines (py "x.org") output (py "a.x.org")).
Proof.
  split; [compute_done |].
  intros (name & output & [= -> ->]%list_elem_of_singleton
          & raw & Hraw & Hstrip & _).
  vm_compute in Hraw. apply list_elem_of_singleton in Hraw as ->.
  vm_compute in Hstrip. discriminate.
Qed.

(** C1, as the code has it.  A line is in the result set exactly when it
    comes from an output on the queue (the outputs of the tasks that
    ended [ok]) as a line of [splitlines], stripped of whitespace at both
    ends, that is not empty and has the domain in it as a run of
    characters.  [splitlines] cuts at every line boundary, so none is
    left in a line; on an output whose only line boundaries are newlines
    the kept lines are those of the output cut at its newlines.  The
    line is taken as it is: lines that differ in case or in a trailing
    dot stay apart, and a line with the domain in another case is not
    kept. *)
Theorem collected_lines_are_stripped_matching_lines :
  (forall (domain : list N) (q : list (list N * list N)) (line : list N),
     line ∈ collect domain q <->
     exists name output raw,
       (name, output) ∈ q /\ raw ∈ splitlines output /\
       line = strip raw /\ line <> [] /\
       exists pre post, line = pre ++ domain ++ post) /\
  (forall (output line : list N) (c : N),
     line ∈ splitlines output -> c ∈ line -> is_linebreak c = false) /\
  (forall (domain output line : list N),
     (forall c, c ∈ output -> is_linebreak c = true -> c = 10) ->
     kept_line domain output line
     <-> kept_line_cut_at_newlines domain output line) /\
  sorted (elements (collect example_com
    [ (py "subfinder",
       py "www.example.com" ++ [10] ++ py "  WWW.example.com " ++ [10]
       ++ py "www.example.com." ++ [13; 10] ++ py "www.EXAMPLE.COM" ++ [10]
       ++ py "   " ++ [10]) ]))
  = [ py "WWW.example.com"; py "www.example.com"; py "www.example.com." ].
Proof.
  split_and!; [| apply splitlines_no_break | | by vm_compute].
  - intros domain q line. rewrite elem_of_collect. unfold kept_line. split.
    + intros (name & output & ? & raw & ? & ? & ? & ?%str_in_spec).
      by exists name, output, raw.
    + intros (name & output & raw & ? & ? & ? & ? & ?%str_in_spec).
      exists name, output. split; [done |]. by exists raw.
  - intros domain output line Hout.
    unfold kept_line, kept_line_cut_at_newlines.
    by rewrite (splitlines_newlines_only output Hout).
Qed.

Lemma collected_lines_are_stripped_matching_lines_witness :
  kept_line (py "x.org") (py " a.x.org " ++ [10] ++ py "zzz" ++ [10])
    (py "a.x.org")
  <-> kept_line_cut_at_newlines (py "x.org")
        (py " a.x.org " ++ [10] ++ py "zzz" ++ [10]) (py "a.x.org").
Proof.
  apply (proj1 (proj2 (proj2 collected_lines_are_stripped_matching_lines))
           (py "x.org") (py " a.x.org " ++ [10] ++ py "zzz" ++ [10])
           (py "a.x.org")).
  intros c Hc Hb.
  repeat (apply elem_of_cons in Hc as [-> | Hc]; [by vm_compute in Hb |]).
  by apply elem_of_nil in Hc.
Defined.

Section FileClaims.

Context {FS : Type}.
Variable fs_exists : list N -> FS -> bool.
Variable fs_isdir : list N -> FS -> bool.
Variable fs_mkdir : list N -> FS -> Z + FS.
Variable fs_open_w : list N -> FS -> Z + FS.
Variable fs_write : list N -> list N -> FS -> FS.
Variable fs_read : list N -> FS -> option (list N).

Hypothesis open_w_empties :
  forall p fs fs', fs_open_w p fs = inr fs' -> fs_read p fs' = Some [].
Hypothesis write_extends :
  forall p s fs content,
    fs_read p fs = Some content ->
    fs_read p (fs_write p s fs) = Some (content ++ s).

(** C2. A line that two outputs on the queue both yield is in the file
    that [main] writes exactly once, whichever tools printed it: read
    back line by line, the file has it on one line and no more.  On
    [example.com], with two fast tools that each print
    [www.example.com], every run of [main] that ends normally leaves a
    file of the one line [www.example.com].  The file system is one
    where [open(path, "w")] gives an empty file and [write] adds at the
    end. *)
Theorem duplicate_lines_are_written_once :
  (forall (domain output_file : list N) (w w' : World) (fs fs' : FS)
          (line n1 o1 n2 o2 : list N),
     (n1, o1) ∈ output_q w -> (n2, o2) ∈ output_q w ->
     kept_line domain o1 line -> kept_line domain o2 line ->
     main_finish fs_exists fs_isdir fs_mkdir fs_open_w fs_write
       domain output_file w fs Normal w' fs' ->
     exists content,
       fs_read output_file fs' = Some content /\
       length (filter (fun l => l = line) (text_lines content)) = 1%nat) /\
  (forall (tr : list Event) (output_file : list N) (w w' : World)
          (fs fs' : FS),
     main_phases two_tools_which two_tools_check_output example_com tr w ->
     main_finish fs_exists fs_isdir fs_mkdir fs_open_w fs_write
       example_com output_file w fs Normal w' fs' ->
     fs_read output_file fs' = Some (www_example_com ++ [10]) /\
     text_lines (www_example_com ++ [10]) = [www_example_com]).
Proof.
  split.
  - intros domain output_file w w' fs fs' line n1 o1 n2 o2 H1 _ K1 _ Hfin.
    destruct (main_finish_file _ _ _ _ _ fs_read _ _ _ _ _ _
                open_w_empties write_extends Hfin) as (order & Hit & Hread).
    exists (text_of_lines (sorted order)). split; [done |].
    rewrite text_lines_of_lines.
    + apply NoDup_filter_eq_length.
      * rewrite sorted_Permutation. by eapply iterates_NoDup.
      * rewrite (iterates_elem_of _ _ _ Hit), elem_of_collect. eauto.
    + apply Forall_forall. intros l Hl.
      apply (iterates_elem_of _ _ _ Hit) in Hl.
      by eapply collect_no_newline.
  - intros tr output_file w w' fs fs' Hrun Hfin.
    destruct (main_finish_file _ _ _ _ _ fs_read _ _ _ _ _ _
                open_w_empties write_extends Hfin) as (order & Hit & Hread).
    split; [| by vm_compute]. rewrite Hread. f_equal.
    apply main_phases_queue in Hrun.
    rewrite (collect_Permutation _ _ _ Hrun) in Hit.
    rewrite (iterates_sorted _ _ Hit). by vm_compute.
Qed.

End FileClaims.

Lemma duplicate_lines_are_written_once_witness :
  (exists content,
     FlatFS.read (py "out/subs.txt")
       {[ py "out" := None;
          py "out/subs.txt" := Some (www_example_com ++ [10]) ]}
     = Some content /\
     length (filter (fun l => l = www_example_com) (text_lines content))
     = 1%nat) /\
  FlatFS.read (py "out/subs.txt")
    {[ py "out" := None;
       py "out/subs.txt" := Some (www_example_com ++ [10]) ]}
  = Some (www_example_com ++ [10]).
Proof.
  assert (Hfin : forall w,
    output_q w = [ (py "assetfinder", www_example_com ++ [10]);
                   (py "subfinder", www_example_com ++ [10]) ] ->
    main_finish FlatFS.exists_ FlatFS.isdir FlatFS.mkdir FlatFS.open_w
      FlatFS.write example_com (py "out/subs.txt") w ∅ Normal
      (emit (Saved (py "out/subs.txt")
               (size (collect example_com (output_q w)))) w)
      {[ py "out" := None;
         py "out/subs.txt" := Some (www_example_com ++ [10]) ]}).
  { intros w Hq. apply main_finish_saved with (order := [www_example_com]).
    - rewrite Hq. unfold iterates. vm_compute. reflexivity.
    - by vm_compute. }
  split.
  - pose (w0 := mkWorld [ (py "assetfinder", www_example_com ++ [10]);
                          (py "subfinder", www_example_com ++ [10]) ] [] []).
    refine (proj1 (duplicate_lines_are_written_once
                    FlatFS.exists_ FlatFS.isdir FlatFS.mkdir FlatFS.open_w
                    FlatFS.write FlatFS.read
                    FlatFS_open_w_truncates FlatFS_write_appends)
             example_com (py "out/subs.txt") w0
             _ ∅ _ www_example_com
             (py "assetfinder") (www_example_com ++ [10])
             (py "subfinder") (www_example_com ++ [10])
             _ _ _ _ (Hfin w0 eq_refl)).
    + by left.
    + right. by left.
    + exists www_example_com. split_and!; compute_done.
    + exists www_example_com. split_and!; compute_done.
  - pose (w := run_in_turn two_tools_which two_tools_check_output
                 (slow_phase example_com)
                 (emit
                    (PhaseHeader 2
                       (estimate_total_time (slow_phase example_com)))
                    (run_in_turn two_tools_which two_tools_check_output
                       (fast_phase example_com)
                       (emit
                          (PhaseHeader 1
                             (estimate_total_time (fast_phase example_com)))
                          empty_world)))).
    assert (Hq : output_q w
                 = [ (py "assetfinder", www_example_com ++ [10]);
                     (py "subfinder", www_example_com ++ [10]) ])
      by (by vm_compute).
    exact (proj1 (proj2 (duplicate_lines_are_written_once
                    FlatFS.exists_ FlatFS.isdir FlatFS.mkdir FlatFS.open_w
                    FlatFS.write FlatFS.read
                    FlatFS_open_w_truncates FlatFS_write_appends)
             _ (py "out/subs.txt") w _ ∅ _
             (main_phases_in_turn two_tools_which two_tools_check_output
                example_com) (Hfin w Hq))).
Defined.

Section WriterClaims.

Context {FS : Type}.
Variable fs_open_w : list N -> FS -> Z + FS.
Variable fs_write : list N -> list N -> FS -> FS.
Variable fs_read : list N -> FS -> option (list N).

(** [open(path, "w")] leaves the file at [path] empty, whatever it held,
    and [f.write(s)] adds [s] at its end. *)
Hypothesis open_w_truncates :
  forall p fs fs', fs_open_w p fs = inr fs' -> fs_read p fs' = Some [].
Hypothesis write_appends :
  forall p s fs content,
    fs_read p fs = Some content ->
    fs_read p (fs_write p s fs) = Some (content ++ s).

(** C3. Once the file is open, the writing step leaves in it, in place
    of whatever it held, the elements of the result set, one per line,
    each line ended by a newline: read back line by line, the file is
    the list of the elements in strictly ascending order (so none comes
    twice), and no line is empty or starts with whitespace. *)
Theorem output_file_holds_the_sorted_lines
    (domain : list N) (q : list (list N * list N)) (order : list (list N))
    (output_file : list N) (fs fs' : FS) :
  iterates (collect domain q) order ->
  write_results fs_open_w fs_write output_file order fs = (Normal, fs') ->
  let lines := sorted order in
  fs_read output_file fs' = Some (text_of_lines lines) /\
  text_lines (text_of_lines lines) = lines /\
  lines ≡ₚ elements (collect domain q) /\
  StronglySorted str_lt lines /\
  Forall (fun l => exists c rest, l = c :: rest /\ isspace c = false) lines.
Proof.
  intros Hit Hw lines.
  assert (Hin : forall l, l ∈ lines -> l ∈ collect domain q).
  { intros l. unfold lines. by rewrite (iterates_elem_of _ _ _ Hit). }
  split_and!.
  - unfold write_results in Hw.
    destruct (fs_open_w output_file fs) as [e | fs1] eqn:E; [done |].
    injection Hw as <-.
    by rewrite (foldl_write_read fs_write fs_read _ _ _ []
                  write_appends (open_w_truncates _ _ _ E)).
  - apply text_lines_of_lines, Forall_forall.
    intros l Hl%Hin. by eapply collect_no_newline.
  - unfold lines. by rewrite sorted_Permutation.
  - apply sorted_strict. by eapply iterates_NoDup.
  - apply Forall_forall. intros l Hl%Hin. by apply collect_shape in Hl as [? _].
Qed.

End WriterClaims.

Lemma output_file_holds_the_sorted_lines_witness :
  FlatFS.read (py "out.txt")
    (snd (write_results FlatFS.open_w FlatFS.write (py "out.txt")
            [py "b.x.org"; py "a.x.org"]
            {[ py "out.txt" := Some (py "old text") ]}))
  = Some (py "a.x.org" ++ [10] ++ py "b.x.org" ++ [10]).
Proof.
  refine (proj1 (output_file_holds_the_sorted_lines
            FlatFS.open_w FlatFS.write FlatFS.read
            FlatFS_open_w_truncates FlatFS_write_appends
            (py "x.org")
            [ (py "amass", py "b.x.org" ++ [10] ++ py "  a.x.org " ++ [10]) ]
            [py "b.x.org"; py "a.x.org"] (py "out.txt")
            {[ py "out.txt" := Some (py "old text") ]} _ _ _)).
  - unfold iterates. vm_compute. reflexivity.
  - by vm_compute.
Defined.

Section ContributionClaims.

Variable which : list N -> option (list N).
Variable check_output : list N -> ProcResult.

(** C4. A call of [run_tool] that does not end [ok] leaves the queue as
    it was: a tool that is not found is not handed to [subprocess], the
    output captured before a timeout is dropped, and a failure (a
    non-zero exit status among them) delivers nothing.  A call that ends
    [ok] adds its decoded output, and so over a whole run of [main] the
    result set holds exactly the kept lines of the tools that ended
    [ok]. *)
Theorem only_ok_outcomes_contribute :
  (forall name cmd w,
     let w' := snd (run_tool which check_output name cmd w) in
     match outcome w' with
     | Some ok =>
         exists stdout secs,
           check_output cmd = Returned stdout secs /\
           output_q w' = output_q w ++ [(name, decode stdout)]
     | Some not_found =>
         output_q w' = output_q w /\ invoked w' = invoked w
     | Some timed_out =>
         (exists partial, check_output cmd = TimeoutExpired partial) /\
         output_q w' = output_q w
     | Some failed =>
         (exists detail, check_output cmd = Raised detail) /\
         output_q w' = output_q w
     | None => output_q w' = output_q w /\ invoked w' = invoked w
     end) /\
  (forall domain tr w line,
     main_phases which check_output domain tr w ->
     line ∈ collect domain (output_q w) <->
     exists name cmd stdout secs,
       (name, cmd) ∈ all_tools domain /\
       available which cmd = inr true /\
       check_output cmd = Returned stdout secs /\
       kept_line domain (decode stdout) line).
Proof.
  split.
  - intros name cmd w.
    destruct (run_tool_cases which check_output name cmd w)
      as [[_ ->] | [[_ ->] | [_ [(stdout & secs & E & ->)
                               | [(partial & E & ->) | (detail & E & ->)]]]]];
      cbn [snd]; rewrite ?outcome_emit; simpl; eauto.
  - intros domain tr w line Hrun.
    rewrite (collect_Permutation _ _ _ (main_phases_queue _ _ _ _ _ Hrun)).
    rewrite elem_of_collect. split.
    + intros (name & output & Hin & Hkept).
      apply list_elem_of_In, in_flat_map in Hin as ([n cmd] & Ht & Hd).
      unfold delivered in Hd. cbn [fst snd] in Hd.
      destruct (available which cmd) as [|[]] eqn:Ea; try done.
      destruct (check_output cmd) as [stdout secs| |] eqn:Ec; try done.
      destruct Hd as [[= <- <-] | []].
      exists n, cmd, stdout, secs. by rewrite <- list_elem_of_In in Ht.
    + intros (name & cmd & stdout & secs & Ht & Ea & Ec & Hkept).
      exists name, (decode stdout). split; [| done].
      apply list_elem_of_In, in_flat_map. exists (name, cmd).
      split; [by apply list_elem_of_In |].
      unfold delivered. cbn [fst snd]. rewrite Ea, Ec. by left.
Qed.

End ContributionClaims.

Lemma only_ok_outcomes_contribute_witness :
  www_example_com
  ∈ collect example_com
      (output_q
         (run_in_turn two_tools_which two_tools_check_output
            (slow_phase example_com)
            (emit (PhaseHeader 2 (estimate_total_time (slow_phase example_com)))
               (run_in_turn two_tools_which two_tools_check_output
                  (fast_phase example_com)
                  (emit
                     (PhaseHeader 1
                        (estimate_total_time (fast_phase example_com)))
                     empty_world))))).
Proof.
  apply (proj2 (only_ok_outcomes_contribute
                  two_tools_which two_tools_check_output)
           example_com _ _ www_example_com
           (main_phases_in_turn two_tools_which two_tools_check_output
              example_com)).
  exists (py "subfinder"), (py "subfinder -d " ++ example_com),
    (list_byte_of_string "www.example.com" ++ [x0a]), 3%Z.
  split_and!; [compute_done | compute_done | compute_done |].
  exists www_example_com. split_and!; compute_done.
Defined.

(** Every command of the table starts with the name of a program. *)
Lemma all_tools_have_a_token (domain name cmd : list N) :
  (name, cmd) ∈ all_tools domain ->
  exists c, c ∈ cmd /\ isspace c = false.
Proof.
  unfold all_tools. intros H.
  repeat (apply elem_of_cons in H as [[= -> ->] | H];
          [simpl; eexists; split; [left | reflexivity] |]).
  by apply elem_of_nil in H.
Qed.

Section OutcomeClaims.

Variable which : list N -> option (list N).
Variable check_output : list N -> ProcResult.

(** C5. On a tool of the table, whatever the domain and the machine,
    [run_tool] returns; it logs its start and then one record, which
    tells how the task ended and names the tool. *)
Theorem run_tool_gives_one_outcome (domain name cmd : list N) (w : World) :
  (name, cmd) ∈ all_tools domain ->
  exists r st w',
    run_tool which check_output name cmd w = (Normal, w') /\
    log w' = log w ++ [Running name; r] /\
    status_of r = Some st /\ outcome w' = Some st /\
    (r = NotFound name \/ (exists secs, r = Finished name secs) \/
     r = TimedOut name \/ (exists detail, r = Failed name detail)).
Proof.
  intros (exe & l & Hsplit)%all_tools_have_a_token%split_nonspace.
  destruct (run_tool_cases which check_output name cmd w)
    as [[E _] | [[_ ->] | [_ [(stdout & secs & _ & ->)
                            | [(partial & _ & ->) | (detail & _ & ->)]]]]].
  - rewrite (available_split which _ _ _ Hsplit) in E. done.
  - exists (NotFound name), not_found. eexists. split; [done |].
    rewrite outcome_emit. simpl. rewrite <- app_assoc. eauto 10.
  - exists (Finished name secs), ok. eexists. split; [done |].
    rewrite outcome_emit. simpl. rewrite <- app_assoc. eauto 10.
  - exists (TimedOut name), timed_out. eexists. split; [done |].
    rewrite outcome_emit. simpl. rewrite <- app_assoc. eauto 10.
  - exists (Failed name detail), failed. eexists. split; [done |].
    rewrite outcome_emit. simpl. rewrite <- app_assoc. eauto 10.
Qed.

End OutcomeClaims.

Lemma run_tool_gives_one_outcome_witness :
  exists r st w',
    run_tool two_tools_which two_tools_check_output
      (py "dnsenum") (py "dnsenum " ++ example_com) empty_world
    = (Normal, w') /\
    log w' = log empty_world ++ [Running (py "dnsenum"); r] /\
    status_of r = Some st /\ outcome w' = Some st /\
    (r = NotFound (py "dnsenum") \/
     (exists secs, r = Finished (py "dnsenum") secs) \/
     r = TimedOut (py "dnsenum") \/
     (exists detail, r = Failed (py "dnsenum") detail)).
Proof.
  apply (run_tool_gives_one_outcome two_tools_which two_tools_check_output
           example_com).
  compute_done.
Defined.

Section PhaseClaims.

Variable which : list N -> option (list N).
Variable check_output : list N -> ProcResult.

Lemma fast_slow_disjoint (domain : list N) (t : tool) :
  t ∈ fast_phase domain -> t ∈ slow_phase domain -> False.
Proof.
  unfold fast_phase, slow_phase.
  intros [H1 _]%list_elem_of_filter [H2 _]%list_elem_of_filter. done.
Qed.

(** C6. In every run of the two phases of [main], each fast task has
    ended before a slow task starts: the event that starts a slow task
    comes later in the run than the event that ends any fast task. *)
Theorem slow_tasks_start_after_fast_tasks_end
    (domain : list N) (tr : list Event) (w : World) (i : nat) (s f : tool) :
  main_phases which check_output domain tr w ->
  tr !! i = Some (Started s) ->
  s ∈ slow_phase domain ->
  f ∈ fast_phase domain ->
  exists j, (j < i)%nat /\ tr !! j = Some (Ended f).
Proof.
  intros [tr1 w1 tr2 w2 H1 H2] Hi Hs Hf.
  assert (Hlen : (length tr1 <= i)%nat).
  { destruct (decide (i < length tr1)%nat) as [Hlt |]; [| lia].
    rewrite lookup_app_l in Hi by done.
    apply list_elem_of_lookup_2 in Hi.
    apply (pool_steps_events _ _ _ _ _ _ _ H1) in Hi.
    cbn [tool_of pending running] in Hi. rewrite app_nil_r in Hi.
    destruct (fast_slow_disjoint domain s Hi Hs). }
  assert (Hended : Ended f ∈ tr1).
  { apply (pool_steps_all_ended _ _ _ _ _ _ _ H1); [done | done |].
    cbn [pending running]. by rewrite app_nil_r. }
  apply list_elem_of_lookup_1 in Hended as [j Hj].
  exists j. pose proof (lookup_lt_Some _ _ _ Hj).
  split; [lia |]. by apply lookup_app_l_Some.
Qed.

End PhaseClaims.

Lemma slow_tasks_start_after_fast_tasks_end_witness :
  exists j, (j < 12)%nat /\
    (trace_in_turn (fast_phase example_com)
     ++ trace_in_turn (slow_phase example_com)) !! j
    = Some (Ended (py "amass", py "amass enum -passive -d " ++ example_com)).
Proof.
  apply (slow_tasks_start_after_fast_tasks_end
           two_tools_which two_tools_check_output example_com _ _ 12%nat
           (py "dnsrecon", py "dnsrecon -d " ++ example_com)
           (py "amass", py "amass enum -passive -d " ++ example_com)
           (main_phases_in_turn two_tools_which two_tools_check_output
              example_com)).
  - by vm_compute.
  - compute_done.
  - compute_done.
Defined.

(** C7. The estimate of a list of tools is the sum of the table's entry
    for each name, 10 for a name the table does not have; the estimate
    of two lists put together is the sum of their estimates (whether or
    not they share tools), and the order of the list does not matter. *)
Theorem estimate_is_an_order_free_sum :
  estimate_total_time [] = 0%Z /\
  (forall t ts,
     estimate_total_time (t :: ts)
     = (default 10 (TOOL_ESTIMATES !! fst t) + estimate_total_time ts)%Z) /\
  (forall name cmd secs, TOOL_ESTIMATES !! name = Some secs ->
     estimate_total_time [(name, cmd)] = secs) /\
  (forall name cmd, TOOL_ESTIMATES !! name = None ->
     estimate_total_time [(name, cmd)] = 10%Z) /\
  (forall A B,
     estimate_total_time (A ++ B)
     = (estimate_total_time A + estimate_total_time B)%Z) /\
  (forall A B, A ≡ₚ B -> estimate_total_time A = estimate_total_time B).
Proof.
  split_and!.
  - done.
  - apply estimate_total_time_cons.
  - intros name cmd secs H. rewrite estimate_total_time_cons.
    cbn [fst]. rewrite (estimate_of_listed name secs H).
    change (estimate_total_time []) with 0%Z. lia.
  - intros name cmd H. rewrite estimate_total_time_cons.
    cbn [fst]. by rewrite (estimate_of_absent name H).
  - apply estimate_total_time_app.
  - apply estimate_total_time_Permutation.
Qed.

Lemma estimate_is_an_order_free_sum_witness :
  estimate_total_time
    [ (py "nmap", py "nmap x"); (py "amass", py "amass x");
      (py "fierce", py "fierce x") ] = 55%Z /\
  estimate_total_time
    [ (py "fierce", py "fierce x"); (py "nmap", py "nmap x");
      (py "amass", py "amass x") ]
  = estimate_total_time
      [ (py "nmap", py "nmap x"); (py "amass", py "amass x");
        (py "fierce", py "fierce x") ].
Proof.
  split; [by vm_compute |].
  apply (proj2 (proj2 (proj2 (proj2 (proj2 estimate_is_an_order_free_sum))))).
  apply Permutation_cons_append
    with (x := (py "fierce", py "fierce x"))
         (l := [ (py "nmap", py "nmap x"); (py "amass", py "amass x") ]).
Defined.

(** The estimates [main] prints, whatever the domain. *)
Lemma estimate_of_the_phases (domain : list N) :
  estimate_total_time (fast_phase domain) = 52%Z /\
  estimate_total_time (slow_phase domain) = 160%Z.
Proof. by vm_compute. Qed.

(** C8 as stated fails: a command of whitespace only has no first token,
    the test raises [IndexError], and the exception leaves [run_tool]. *)
Lemma gate_raises_on_a_blank_command :
  available two_tools_which (py "   ") = inl IndexError /\
  available two_tools_which [] = inl IndexError /\
  fst (run_tool two_tools_which two_tools_check_output
         (py "blank") (py "   ") empty_world)
  = Uncaught IndexError.
Proof. by vm_compute. Qed.

Section GateClaims.

Variable which : list N -> option (list N).
Variable check_output : list N -> ProcResult.

(** C8, as the code has it.  On a command with a character that is not
    whitespace, the test takes the first token of the command and tells
    whether [shutil.which] finds a program of that name; when it does
    not, [run_tool] logs that the tool was not found and returns, and no
    command is handed to [subprocess]. *)
Theorem gate_on_a_command_with_a_token (cmd : list N) :
  (exists c, c ∈ cmd /\ isspace c = false) ->
  exists exe,
    first_token cmd exe /\
    (forall exe', first_token cmd exe' -> exe' = exe) /\
    available which cmd = inr (bool_decide (which exe <> None)) /\
    (which exe = None ->
     forall name w,
       run_tool which check_output name cmd w
       = (Normal, emit (NotFound name) (emit (Running name) w)) /\
       outcome (snd (run_tool which check_output name cmd w))
       = Some not_found /\
       invoked (snd (run_tool which check_output name cmd w)) = invoked w).
Proof.
  intros (exe & l & Hsplit)%split_nonspace. exists exe.
  pose proof (available_split which _ _ _ Hsplit) as Ha.
  pose proof (split_first_token _ _ _ Hsplit) as Htok.
  split_and!; [done | | done |].
  { intros exe' H. by eapply first_token_unique. }
  intros Hnone name w. unfold run_tool, run_tool_body.
  rewrite Ha, Hnone. rewrite bool_decide_eq_false_2 by (by intros []).
  cbn [snd]. by rewrite outcome_emit.
Qed.

End GateClaims.

Lemma gate_on_a_command_with_a_token_witness :
  exists exe,
    first_token (py "dnsenum " ++ example_com) exe /\
    (forall exe', first_token (py "dnsenum " ++ example_com) exe' ->
                  exe' = exe) /\
    available two_tools_which (py "dnsenum " ++ example_com)
    = inr (bool_decide (two_tools_which exe <> None)) /\
    (two_tools_which exe = None ->
     forall name w,
       run_tool two_tools_which two_tools_check_output name
         (py "dnsenum " ++ example_com) w
       = (Normal, emit (NotFound name) (emit (Running name) w)) /\
       outcome (snd (run_tool two_tools_which two_tools_check_output name
                       (py "dnsenum " ++ example_com) w))
       = Some not_found /\
       invoked (snd (run_tool two_tools_which two_tools_check_output name
                       (py "dnsenum " ++ example_com) w)) = invoked w).
Proof.
  apply (gate_on_a_command_with_a_token two_tools_which two_tools_check_output).
  exists 100. split; [left | reflexivity].
Defined.

Section CollectionOrder.

Context {FS : Type}.
Variable fs_open_w : list N -> FS -> Z + FS.
Variable fs_write : list N -> list N -> FS -> FS.

(** C9. Two queues with the same items, in whatever order, give the same
    set, the same sorted list, and the same effect of the writing step
    on any file system, however the sets hand out their elements. *)
Theorem output_does_not_depend_on_completion_order
    (domain : list N) (q1 q2 : list (list N * list N))
    (order1 order2 : list (list N)) (output_file : list N) (fs : FS) :
  q1 ≡ₚ q2 ->
  iterates (collect domain q1) order1 ->
  iterates (collect domain q2) order2 ->
  collect domain q1 = collect domain q2 /\
  sorted order1 = sorted order2 /\
  write_results fs_open_w fs_write output_file order1 fs
  = write_results fs_open_w fs_write output_file order2 fs.
Proof.
  intros Hq H1 H2. pose proof (collect_Permutation domain _ _ Hq) as Hc.
  assert (Hs : sorted order1 = sorted order2).
  { apply sorted_order_irrelevant. unfold iterates in *.
    by rewrite H1, H2, Hc. }
  split_and!; [done | done |].
  unfold write_results. by rewrite Hs.
Qed.

End CollectionOrder.

Lemma output_does_not_depend_on_completion_order_witness :
  sorted [py "b.x.org"; py "a.x.org"] = sorted [py "a.x.org"; py "b.x.org"].
Proof.
  apply (output_does_not_depend_on_completion_order
           FlatFS.open_w FlatFS.write (py "x.org")
           [ (py "amass", py "b.x.org" ++ [10]);
             (py "fierce", py "a.x.org" ++ [10] ++ py "b.x.org") ]
           [ (py "fierce", py "a.x.org" ++ [10] ++ py "b.x.org");
             (py "amass", py "b.x.org" ++ [10]) ]
           [py "b.x.org"; py "a.x.org"] [py "a.x.org"; py "b.x.org"]
           (py "out/x.txt") ∅).
  - apply perm_swap.
  - unfold iterates. vm_compute. reflexivity.
  - unfold iterates. vm_compute. apply perm_swap.
Defined.

(** Two runs of [main] on the same machine collect the same set and
    write the same lines, however their tasks interleave. *)
Lemma main_output_is_determined which check_output domain
    tr1 w1 tr2 w2 order1 order2 :
  main_phases which check_output domain tr1 w1 ->
  main_phases which check_output domain tr2 w2 ->
  iterates (collect domain (output_q w1)) order1 ->
  iterates (collect domain (output_q w2)) order2 ->
  sorted order1 = sorted order2.
Proof.
  intros R1%main_phases_queue R2%main_phases_queue H1 H2.
  apply sorted_order_irrelevant. unfold iterates in *.
  rewrite H1, H2.
  by rewrite (collect_Permutation domain _ _ R1),
             (collect_Permutation domain _ _ R2).
Qed.

Section SaveClaims.

Context {FS : Type}.
Variable fs_exists : list N -> FS -> bool.
Variable fs_isdir : list N -> FS -> bool.
Variable fs_mkdir : list N -> FS -> Z + FS.
Variable fs_open_w : list N -> FS -> Z + FS.
Variable fs_write : list N -> list N -> FS -> FS.

Local Abbreviation main_finish' :=
  (main_finish fs_exists fs_isdir fs_mkdir fs_open_w fs_write).

(** [main] always gets from the queue to an end, be it the file written
    or an exception of [os.makedirs] or [open]. *)
Lemma main_finish_total (domain output_file : list N) (w : World) (fs : FS) :
  exists c w' fs', main_finish' domain output_file w fs c w' fs'.
Proof.
  pose proof (iterates_elements (collect domain (output_q w))) as Hit.
  destruct (makedirs_total fs_exists fs_isdir fs_mkdir
              (dirname output_file) fs) as [[c fs1] Hmk].
  destruct c as [|e].
  - destruct (write_results fs_open_w fs_write output_file
                (elements (collect domain (output_q w))) fs1)
      as [[|e] fs2] eqn:Hw.
    + do 3 eexists. eapply main_finish_saved; [done |].
      unfold save. by rewrite Hmk, Hw.
    + do 3 eexists. eapply main_finish_raised; [done |].
      unfold save. by rewrite Hmk, Hw.
  - do 3 eexists. eapply main_finish_raised; [done |].
    unfold save. by rewrite Hmk.
Qed.

(** The empty path names no directory: [os.mkdir("")] fails with
    [ENOENT], and [os.path.isdir("")] is false. *)
Hypothesis mkdir_empty_path : forall fs, fs_mkdir [] fs = inl ENOENT.
Hypothesis isdir_empty_path : forall fs, fs_isdir [] fs = false.

(** C10. For an output path without a slash, [os.path.dirname] is the
    empty string, [os.makedirs] raises on it, and the exception ends
    [main]: the file system is as it was (the file has not been opened)
    and the closing log line is not written.  So a run that writes the
    file had a path with a directory part. *)
Theorem bare_file_name_aborts_the_run
    (domain output_file : list N) (w : World) (fs : FS) :
  SEP ∉ output_file ->
  dirname output_file = [] /\
  main_finish' domain output_file w fs (Uncaught (OSError ENOENT)) w fs /\
  (forall c w' fs',
     main_finish' domain output_file w fs c w' fs' ->
     c = Uncaught (OSError ENOENT) /\ w' = w /\ fs' = fs).
Proof.
  intros Hdir%dirname_nil_iff.
  assert (Hsave : forall order,
    save fs_exists fs_isdir fs_mkdir fs_open_w fs_write output_file order fs
    = Some (Uncaught (OSError ENOENT), fs)).
  { intros order. unfold save. rewrite Hdir, makedirs_empty.
    unfold mkdir_exist_ok. by rewrite mkdir_empty_path, isdir_empty_path. }
  split_and!; [done | |].
  - eapply main_finish_raised; [apply iterates_elements | apply Hsave].
  - intros c w' fs' [order fs1 _ H | order e fs1 _ H];
      rewrite Hsave in H; [discriminate |]. by injection H as <- <-.
Qed.

End SaveClaims.

Lemma bare_file_name_aborts_the_run_witness :
  dirname (py "out.txt") = [] /\
  main_finish FlatFS.exists_ FlatFS.isdir FlatFS.mkdir FlatFS.open_w
    FlatFS.write example_com (py "out.txt") empty_world ∅
    (Uncaught (OSError ENOENT)) empty_world ∅ /\
  (forall c w' fs',
     main_finish FlatFS.exists_ FlatFS.isdir FlatFS.mkdir FlatFS.open_w
       FlatFS.write example_com (py "out.txt") empty_world ∅ c w' fs' ->
     c = Uncaught (OSError ENOENT) /\ w' = empty_world /\ fs' = ∅).
Proof.
  apply (bare_file_name_aborts_the_run
           FlatFS.exists_ FlatFS.isdir FlatFS.mkdir FlatFS.open_w FlatFS.write
           FlatFS_mkdir_empty_path FlatFS_isdir_empty_path
           example_com (py "out.txt") empty_world ∅).
  compute_done.
Defined.

(** * Further properties of the script *)

(** ** Accounts of a run *)

Section AccountFacts.

Variable which : list N -> option (list N).
Variable check_output : list N -> ProcResult.

(** A run of a pool, seen through a part of the state that the calls
    only add to: in the end it holds what it held, with what each call
    adds when it starts and when it ends. *)
Lemma pool_steps_account {A} (part : World -> list A)
    (at_start at_end : tool -> list A) k p tr p' :
  (forall t w, part (emit (Running (fst t)) w) = part w ++ at_start t) ->
  (forall t w,
     part (snd (run_tool_body which check_output (fst t) (snd t) w))
     = part w ++ at_end t) ->
  pool_steps which check_output k p tr p' ->
  pending p' = [] -> running p' = [] ->
  part (world p')
  ≡ₚ part (world p)
     ++ flat_map (fun t => at_start t ++ at_end t) (pending p)
     ++ flat_map at_end (running p).
Proof.
  intros Hstart Hend.
  induction 1 as [p | p e' p1 tr p2 Hstep _ IH]; intros Hp Hr.
  - rewrite Hp, Hr. simpl. by rewrite app_nil_r.
  - rewrite (IH Hp Hr). destruct Hstep; simpl.
    + rewrite Hstart, flat_map_app. simpl. rewrite app_nil_r.
      solve_Permutation.
    + rewrite Hend, !flat_map_app. simpl. solve_Permutation.
Qed.

(** The calls of a pool start in the order in which they were pending,
    and the calls it has ended are those that were running or have
    started, less those still running. *)
Lemma pool_steps_started_ended k p tr p' :
  pool_steps which check_output k p tr p' ->
  started tr ++ pending p' = pending p /\
  ended tr ++ running p' ≡ₚ running p ++ started tr.
Proof.
  induction 1 as [p | p e' p1 tr p2 Hstep _ [IH1 IH2]].
  - simpl. by rewrite app_nil_r.
  - destruct Hstep; simpl in *.
    + split; [by rewrite IH1 |]. rewrite IH2. solve_Permutation.
    + split; [done |]. rewrite IH2. solve_Permutation.
Qed.

Lemma phase_run_started_ended k tasks w tr w' :
  phase_run which check_output k tasks w tr w' ->
  started tr = tasks /\ ended tr ≡ₚ tasks.
Proof.
  intros [H1 H2]%pool_steps_started_ended. simpl in *.
  rewrite app_nil_r in H1, H2. by rewrite H2, H1.
Qed.

Lemma length_started_ended tr :
  length tr = (length (started tr) + length (ended tr))%nat.
Proof.
  induction tr as [|[t | t] tr IH]; simpl; [done | |]; rewrite IH; lia.
Qed.

Lemma all_tools_NoDup (domain : list N) : NoDup (all_tools domain).
Proof.
  apply (NoDup_fmap_1 fst).
  change (NoDup (fst <$> all_tools [])). compute_done.
Qed.

Lemma phase_run_invoked k tasks w tr w' :
  phase_run which check_output k tasks w tr w' ->
  invoked w' ≡ₚ invoked w ++ flat_map (spawned which) tasks.
Proof.
  intros H.
  apply (pool_steps_account invoked (fun _ => []) (spawned which)) in H;
    [| | | done | done].
  - simpl in H. by rewrite app_nil_r in H.
  - intros t w0. simpl. by rewrite app_nil_r.
  - intros [name cmd] w0. unfold run_tool_body, spawned. simpl.
    destruct (available which cmd) as [e | []]; simpl.
    + by rewrite app_nil_r.
    + by destruct (check_output cmd).
    + by rewrite app_nil_r.
Qed.

Lemma phase_run_log k tasks w tr w' :
  phase_run which check_output k tasks w tr w' ->
  log w' ≡ₚ log w ++ flat_map (records which check_output) tasks.
Proof.
  intros H.
  apply (pool_steps_account log (fun t => [Running (fst t)])
           (closing_records which check_output)) in H;
    [| done | | done | done].
  - simpl in H. by rewrite app_nil_r in H.
  - intros [name cmd] w0. unfold run_tool_body, closing_records. simpl.
    destruct (available which cmd) as [e | []]; simpl.
    + by rewrite app_nil_r.
    + by destruct (check_output cmd).
    + done.
Qed.

End AccountFacts.

(** The first word of each command of the table, whatever the domain. *)
Lemma all_tools_first_word (domain name cmd : list N) :
  (name, cmd) ∈ all_tools domain ->
  head (split cmd) = Some (gate_program name).
Proof.
  unfold all_tools. intros H.
  repeat (apply elem_of_cons in H as [[= -> ->] | H]; [by vm_compute |]).
  by apply elem_of_nil in H.
Qed.

Lemma length_filter_flat_map {A B C} (P : B -> Prop) `{forall x, Decision (P x)}
    (f : A -> list B) (g : A -> list C) (l : list A) :
  (forall x, x ∈ l -> length (filter P (f x)) = length (g x)) ->
  length (filter P (flat_map f l)) = length (flat_map g l).
Proof.
  induction l as [|x l IH]; intros Hl; simpl; [done |].
  rewrite filter_app, !length_app, IH.
  - rewrite Hl; [done | left].
  - intros y Hy. apply Hl. by right.
Qed.

Section RunAccounts.

Variable which : list N -> option (list N).
Variable check_output : list N -> ProcResult.

Lemma available_in_table (domain name cmd : list N) :
  (name, cmd) ∈ all_tools domain ->
  available which cmd = inr (bool_decide (which (gate_program name) <> None)).
Proof.
  intros Hl%all_tools_first_word. unfold available.
  destruct (split cmd); simplify_eq/=; done.
Qed.

(** X1. In every run of the two phases, the tasks start in the order of
    the table within each phase, the fast ones before the slow ones; each
    of the eleven tools is started once and ended once, so the run has
    twenty-two start and end events. *)
Theorem every_tool_is_run_once (domain : list N) (tr : list Event) (w : World) :
  main_phases which check_output domain tr w ->
  started tr = fast_phase domain ++ slow_phase domain /\
  ended tr ≡ₚ all_tools domain /\
  NoDup (started tr) /\ NoDup (ended tr) /\
  length tr = 22%nat.
Proof.
  intros [tr1 w1 tr2 w2 [S1 E1]%phase_run_started_ended
                        [S2 E2]%phase_run_started_ended].
  assert (Hs : started (tr1 ++ tr2) = fast_phase domain ++ slow_phase domain).
  { unfold started. rewrite flat_map_app. fold (started tr1) (started tr2).
    by rewrite S1, S2. }
  assert (He : ended (tr1 ++ tr2) ≡ₚ all_tools domain).
  { unfold ended. rewrite flat_map_app. fold (ended tr1) (ended tr2).
    by rewrite E1, E2, fast_slow_all_tools. }
  split_and!; [done | done | | |].
  - rewrite Hs, fast_slow_all_tools. apply all_tools_NoDup.
  - rewrite He. apply all_tools_NoDup.
  - rewrite length_started_ended, Hs, He, fast_slow_all_tools. reflexivity.
Qed.

(** X2. Over a run, [subprocess.check_output] receives the command of
    each tool whose first word [shutil.which] finds, once, and nothing
    else: a command that was invoked is a command of the table. *)
Theorem subprocess_gets_the_commands_of_available_tools
    (domain : list N) (tr : list Event) (w : World) :
  main_phases which check_output domain tr w ->
  invoked w ≡ₚ flat_map (spawned which) (all_tools domain) /\
  (forall cmd,
     cmd ∈ invoked w <->
     exists name, (name, cmd) ∈ all_tools domain /\
                  which (gate_program name) <> None).
Proof.
  intros [tr1 w1 tr2 w2 H1%phase_run_invoked H2%phase_run_invoked].
  cbn [invoked emit empty_world] in H1, H2.
  assert (Hinv : invoked w2 ≡ₚ flat_map (spawned which) (all_tools domain)).
  { rewrite H2, H1. cbn [app]. rewrite <- flat_map_app.
    by rewrite fast_slow_all_tools. }
  split; [done |]. intros cmd. rewrite Hinv.
  rewrite list_elem_of_In, in_flat_map. split.
  - intros ([name c] & Ht%list_elem_of_In & Hc). unfold spawned in Hc.
    cbn [snd] in Hc. rewrite (available_in_table _ _ _ Ht) in Hc.
    case_bool_decide as Hw; [| done]. destruct Hc as [<- | []]. eauto.
  - intros (name & Ht & Hw). exists (name, cmd).
    split; [by apply list_elem_of_In |]. unfold spawned. cbn [snd].
    rewrite (available_in_table _ _ _ Ht), bool_decide_eq_true_2 by done.
    by left.
Qed.

(** The log of a run: the two headers and what each tool logs. *)
Lemma main_phases_log (domain : list N) (tr : list Event) (w : World) :
  main_phases which check_output domain tr w ->
  log w ≡ₚ PhaseHeader 1 52 :: PhaseHeader 2 160
           :: flat_map (records which check_output) (all_tools domain).
Proof.
  intros [tr1 w1 tr2 w2 H1%phase_run_log H2%phase_run_log].
  cbn [log emit empty_world app] in H1, H2.
  destruct (estimate_of_the_phases domain) as [Ef Es].
  rewrite Ef in H1. rewrite Es in H2.
  rewrite H2, H1, <- (fast_slow_all_tools domain), flat_map_app.
  generalize (flat_map (records which check_output) (fast_phase domain))
             (flat_map (records which check_output) (slow_phase domain)).
  intros A B. solve_Permutation.
Qed.

(** As many tasks log that they finished as there are items on the
    queue. *)
Lemma main_phases_finished (domain : list N) (tr : list Event) (w : World) :
  main_phases which check_output domain tr w ->
  length (filter (fun r => status_of r = Some ok) (log w))
  = length (output_q w).
Proof.
  intros Hrun. rewrite (main_phases_log _ _ _ Hrun).
  rewrite (main_phases_queue _ _ _ _ _ Hrun).
  rewrite (filter_cons_False _ (PhaseHeader 1 52)) by done.
  rewrite (filter_cons_False _ (PhaseHeader 2 160)) by done.
  apply length_filter_flat_map.
  intros [name cmd] Ht. unfold records, closing_records, delivered.
  cbn [fst snd].
  rewrite (filter_cons_False _ (Running name)) by done.
  destruct (available which cmd) as [|[]]; [done | | done].
  destruct (check_output cmd); [by rewrite filter_cons_True by done | |];
    by rewrite filter_cons_False by done.
Qed.

(** X3. The log of a run holds the two phase headers and, for each tool
    of the table, its first line followed by one record of how it ended:
    eleven such records in all, and as many [Finished] records as there
    are items on the queue. *)
Theorem every_tool_logs_one_outcome
    (domain : list N) (tr : list Event) (w : World) :
  main_phases which check_output domain tr w ->
  log w ≡ₚ PhaseHeader 1 52 :: PhaseHeader 2 160
           :: flat_map (records which check_output) (all_tools domain) /\
  length (filter (fun r => is_Some (status_of r)) (log w)) = 11%nat /\
  length (filter (fun r => status_of r = Some ok) (log w))
  = length (output_q w).
Proof.
  intros Hrun. pose proof (main_phases_log _ _ _ Hrun) as Hlog.
  split_and!; [done | | exact (main_phases_finished _ _ _ Hrun)].
  rewrite Hlog.
  rewrite (filter_cons_False _ (PhaseHeader 1 52)) by (by intros []).
  rewrite (filter_cons_False _ (PhaseHeader 2 160)) by (by intros []).
  rewrite (length_filter_flat_map _ _ (fun t => [t])).
  - by rewrite flat_map_constant_length with (c := 1%nat).
  - intros [name cmd] Ht. unfold records, closing_records. cbn [fst snd].
    rewrite (available_in_table _ _ _ Ht).
    rewrite (filter_cons_False _ (Running name)) by (by intros []).
    destruct (bool_decide _); [destruct (check_output cmd) |];
      by rewrite filter_cons_True by (by eexists).
Qed.

End RunAccounts.

Section GateFacts.

Variable which : list N -> option (list N).
Variable check_output : list N -> ProcResult.

(** X4. For a tool of the table, the program looked up is the first
    word of its command: the tool's own name, except for [sublist3r],
    whose command starts with [python3].  The task ends [not_found]
    exactly when [shutil.which] does not find that program. *)
Theorem not_found_means_first_word_is_missing
    (domain name cmd : list N) (w : World) :
  (name, cmd) ∈ all_tools domain ->
  first_token cmd (gate_program name) /\
  (outcome (snd (run_tool which check_output name cmd w)) = Some not_found
   <-> which (gate_program name) = None).
Proof.
  intros Ht. pose proof (all_tools_first_word _ _ _ Ht) as Hhd.
  pose proof (available_in_table which _ _ _ Ht) as Ha.
  split.
  - destruct (split cmd) as [|exe l] eqn:E; [done |].
    injection Hhd as <-. by apply (split_first_token _ _ l).
  - unfold run_tool, run_tool_body. rewrite Ha.
    case_bool_decide as Hw.
    + destruct (check_output cmd); cbn [snd]; rewrite outcome_emit; simpl;
        split; (done || (intros Hn; by rewrite Hn in Hw)).
    + cbn [snd]. rewrite outcome_emit. simpl. split; [intros _ | done].
      destruct (which (gate_program name)); [by destruct Hw | done].
Qed.

End GateFacts.

(** X5. The names of the tool table are exactly the keys of
    [TOOL_ESTIMATES], so [main] never falls back on the default of 10;
    the two estimates it prints are 52 and 160 seconds, whatever the
    domain. *)
Theorem estimates_cover_the_tool_table (domain : list N) :
  (forall name,
     name ∈ map fst (all_tools domain) <-> is_Some (TOOL_ESTIMATES !! name)) /\
  estimate_total_time (fast_phase domain) = 52%Z /\
  estimate_total_time (slow_phase domain) = 160%Z.
Proof.
  split; [| apply estimate_of_the_phases].
  intros name. unfold TOOL_ESTIMATES, is_Some.
  setoid_rewrite <- elem_of_list_to_map; [| compute_done].
  split.
  - intros H. apply list_elem_of_fmap in H as ([n c] & -> & H).
    unfold all_tools in H. exists (estimate_of n).
    repeat (apply elem_of_cons in H as [[= -> ->] | H]; [compute_done |]).
    by apply elem_of_nil in H.
  - intros [secs H].
    repeat (apply elem_of_cons in H as [[= -> ->] | H]; [compute_done |]).
    by apply elem_of_nil in H.
Qed.

Lemma estimate_of_bounds (name : list N) :
  (5 <= estimate_of name <= 40)%Z.
Proof.
  unfold estimate_of. destruct (TOOL_ESTIMATES !! name) as [secs|] eqn:E.
  - unfold TOOL_ESTIMATES in E. apply elem_of_list_to_map_2 in E.
    repeat (apply elem_of_cons in E as [[= -> ->] | E]; [simpl; lia |]).
    by apply elem_of_nil in E.
  - simpl. lia.
Qed.

(** X6. The estimate of a list of tools lies between 5 and 40 seconds
    per tool, whatever the names. *)
Theorem estimate_is_within_bounds (tool_list : list tool) :
  (5 * Z.of_nat (length tool_list) <= estimate_total_time tool_list
   <= 40 * Z.of_nat (length tool_list))%Z.
Proof.
  induction tool_list as [|t l IH].
  - by vm_compute.
  - rewrite estimate_total_time_cons. pose proof (estimate_of_bounds (fst t)).
    cbn [length]. lia.
Qed.

(** X7. Collecting from two queues put together gives the union of
    what each gives; collecting the same items twice adds nothing, and
    further items never remove a line. *)
Theorem collect_of_joined_queues
    (domain : list N) (q1 q2 : list (list N * list N)) :
  collect domain (q1 ++ q2) = collect domain q1 ∪ collect domain q2 /\
  collect domain (q1 ++ q1) = collect domain q1 /\
  collect domain q1 ⊆ collect domain (q1 ++ q2).
Proof.
  assert (H : forall a b, collect domain (a ++ b)
                          = collect domain a ∪ collect domain b).
  { intros a b. apply set_eq. intros line.
    rewrite elem_of_union, !elem_of_collect.
    setoid_rewrite elem_of_app. split.
    - intros (n & o & [?|?] & ?); [left | right]; eauto.
    - intros [(n & o & ? & ?) | (n & o & ? & ?)]; eauto 6. }
  split_and!; [apply H | | ].
  - rewrite H. apply set_eq. intros x. rewrite elem_of_union. tauto.
  - rewrite H. intros x Hx. apply elem_of_union. by left.
Qed.

Section StripFacts.

Implicit Types (s : list N).

Lemma lstrip_idempotent s : lstrip (lstrip s) = lstrip s.
Proof.
  induction s as [|c s IH]; simpl; [done |].
  destruct (isspace c) eqn:Hc; [done |]. simpl. by rewrite Hc.
Qed.

Lemma rstrip_idempotent s : rstrip (rstrip s) = rstrip s.
Proof. unfold rstrip. by rewrite rev_involutive, lstrip_idempotent. Qed.

(** Stripping what is already stripped changes nothing. *)
Lemma strip_idempotent s : strip (strip s) = strip s.
Proof.
  unfold strip at 1. destruct (strip s) as [|c r] eqn:E; [done |].
  pose proof (strip_first _ _ _ E) as Hc.
  cbn [lstrip]. rewrite Hc, <- E. unfold strip. apply rstrip_idempotent.
Qed.

Lemma str_in_length (p s : list N) :
  str_in p s = true -> (length p <= length s)%nat.
Proof.
  intros (pre & post & ->)%str_in_spec. rewrite !length_app. lia.
Qed.

Lemma collect_line_fixed domain (q : list (list N * list N)) line :
  line ∈ collect domain q ->
  strip line = line /\ line <> [] /\ str_in domain line = true.
Proof.
  intros (n & o & _ & raw & _ & -> & ? & ?)%elem_of_collect.
  by rewrite strip_idempotent.
Qed.

End StripFacts.

Lemma text_of_lines_breaks (lines : list (list N)) (c : N) :
  Forall (fun l => forall x, x ∈ l -> is_linebreak x = false) lines ->
  c ∈ text_of_lines lines -> is_linebreak c = true -> c = 10.
Proof.
  unfold text_of_lines. induction 1 as [|l lines Hl _ IH]; simpl.
  - by intros ?%elem_of_nil.
  - rewrite <- app_assoc.
    intros [Hc | [Hc | Hc]%elem_of_app]%elem_of_app Hb.
    + by rewrite (Hl _ Hc) in Hb.
    + by apply list_elem_of_singleton in Hc.
    + by apply IH.
Qed.

(** What was written line by line is split by [splitlines] into the same
    lines, provided none holds a line boundary. *)
Lemma splitlines_text_of_lines (lines : list (list N)) :
  Forall (fun l => forall x, x ∈ l -> is_linebreak x = false) lines ->
  splitlines (text_of_lines lines) = lines.
Proof.
  intros H. rewrite splitlines_newlines_only.
  - apply text_lines_of_lines. eapply Forall_impl; [done |].
    intros l Hl Hin. by specialize (Hl _ Hin).
  - intros c. by apply text_of_lines_breaks.
Qed.

(** X8. The file that is written, given back to the collector as the
    output of a tool, yields the result set it was written from. *)
Theorem output_file_collects_to_itself
    (domain name : list N) (q : list (list N * list N))
    (order : list (list N)) :
  iterates (collect domain q) order ->
  collect domain [(name, text_of_lines (sorted order))] = collect domain q.
Proof.
  intros Hit.
  assert (Hlines : splitlines (text_of_lines (sorted order)) = sorted order).
  { apply splitlines_text_of_lines, Forall_forall.
    intros l Hl. apply (iterates_elem_of _ _ _ Hit) in Hl.
    by apply collect_shape in Hl as [_ ?]. }
  apply set_eq. intros line. rewrite elem_of_collect. split.
  - intros (n & o & [= -> ->]%list_elem_of_singleton & raw & Hraw & -> & _).
    rewrite Hlines in Hraw. apply (iterates_elem_of _ _ _ Hit) in Hraw.
    by destruct (collect_line_fixed _ _ _ Hraw) as [-> _].
  - intros Hl. destruct (collect_line_fixed _ _ _ Hl) as (Hs & Hne & Hd).
    exists name, (text_of_lines (sorted order)).
    split; [by apply list_elem_of_singleton |].
    exists line. rewrite Hlines, (iterates_elem_of _ _ _ Hit). by rewrite Hs.
Qed.

(** X9. With the empty domain every stripped line that is not empty is
    kept; with a domain that holds a line boundary nothing is ever kept;
    and no kept line is shorter than the domain. *)
Theorem filter_on_edge_domains (q : list (list N * list N)) :
  (forall line,
     line ∈ collect [] q <->
     exists name output raw,
       (name, output) ∈ q /\ raw ∈ splitlines output /\
       line = strip raw /\ line <> []) /\
  (forall domain c,
     c ∈ domain -> is_linebreak c = true -> collect domain q = ∅) /\
  (forall domain line,
     line ∈ collect domain q -> (length domain <= length line)%nat).
Proof.
  split_and!.
  - intros line. rewrite elem_of_collect. unfold kept_line. split.
    + intros (n & o & ? & raw & ? & ? & ? & _). by exists n, o, raw.
    + intros (n & o & raw & ? & ? & ? & ?). exists n, o. split; [done |].
      exists raw. split_and!; try done. by destruct line.
  - intros domain c Hc Hb. apply set_eq. intros line. split.
    + intros Hl. destruct (collect_shape _ _ _ Hl) as [_ Hnb].
      destruct (collect_line_fixed _ _ _ Hl) as (_ & _ & Hd).
      apply str_in_spec in Hd as (pre & post & ->).
      rewrite Hnb in Hb; [done |].
      apply elem_of_app. right. apply elem_of_app. by left.
    + by intros ?%not_elem_of_empty.
  - intros domain line Hl.
    destruct (collect_line_fixed _ _ _ Hl) as (_ & _ & Hd).
    by apply str_in_length.
Qed.

Lemma flat_map_nil {A B} (f : A -> list B) (l : list A) :
  (forall x, x ∈ l -> f x = []) -> flat_map f l = [].
Proof.
  induction l as [|x l IH]; intros H; simpl; [done |].
  rewrite (H x) by left. apply IH. intros y Hy. apply H. by right.
Qed.

Section NothingDelivered.

Variable which : list N -> option (list N).
Variable check_output : list N -> ProcResult.

(** X10. When each tool of the table is missing or does not return (it
    times out or fails), a run leaves the queue empty: no task logs that
    it finished, the result set is empty and the text to write is the
    empty text. *)
Theorem run_without_ok_tools_collects_nothing
    (domain : list N) (tr : list Event) (w : World) :
  (forall name cmd,
     (name, cmd) ∈ all_tools domain ->
     which (gate_program name) = None \/
     forall stdout secs, check_output cmd <> Returned stdout secs) ->
  main_phases which check_output domain tr w ->
  output_q w = [] /\
  collect domain (output_q w) = ∅ /\
  length (filter (fun r => status_of r = Some ok) (log w)) = 0%nat /\
  (forall order,
     iterates (collect domain (output_q w)) order ->
     text_of_lines (sorted order) = []).
Proof.
  intros Hnone Hrun.
  assert (Hq : output_q w = []).
  { apply Permutation_nil_r. rewrite (main_phases_queue _ _ _ _ _ Hrun).
    rewrite flat_map_nil; [done |].
    intros [name cmd] Ht. unfold delivered. cbn [fst snd].
    rewrite (available_in_table which _ _ _ Ht).
    destruct (Hnone name cmd Ht) as [Hw | Hc].
    - rewrite Hw. by rewrite bool_decide_eq_false_2 by (by intros []).
    - destruct (bool_decide _); [| done].
      destruct (check_output cmd) eqn:E; try done. by destruct (Hc _ _ eq_refl). }
  split_and!; [done | by rewrite Hq | |].
  - by rewrite (main_phases_finished which check_output _ _ _ Hrun), Hq.
  - intros order Hit. rewrite Hq in Hit. unfold iterates in Hit.
    change (collect domain []) with (∅ : gset (list N)) in Hit.
    rewrite elements_empty in Hit. by apply Permutation_nil_r in Hit as ->.
Qed.

End NothingDelivered.

Section ReportedTotal.

Context {FS : Type}.
Variable fs_exists : list N -> FS -> bool.
Variable fs_isdir : list N -> FS -> bool.
Variable fs_mkdir : list N -> FS -> Z + FS.
Variable fs_open_w : list N -> FS -> Z + FS.
Variable fs_write : list N -> list N -> FS -> FS.
Variable fs_read : list N -> FS -> option (list N).

Hypothesis open_w_gives_an_empty_file :
  forall p fs fs', fs_open_w p fs = inr fs' -> fs_read p fs' = Some [].
Hypothesis write_adds_at_the_end :
  forall p s fs content,
    fs_read p fs = Some content ->
    fs_read p (fs_write p s fs) = Some (content ++ s).

(** X11. When [main] ends normally, the total in its closing log line
    is the number of lines of the file it wrote, and the queue is as the
    phases left it.  The file system is one where [open(path, "w")]
    gives an empty file and [write] adds at the end. *)
Theorem reported_total_is_the_number_of_lines
    (domain output_file : list N) (w w' : World) (fs fs' : FS) :
  main_finish fs_exists fs_isdir fs_mkdir fs_open_w fs_write
    domain output_file w fs Normal w' fs' ->
  exists content,
    fs_read output_file fs' = Some content /\
    log w' = log w ++ [Saved output_file (length (text_lines content))] /\
    output_q w' = output_q w.
Proof.
  inversion 1 as [order fs2 Hit Hsave |]; subst.
  unfold save in Hsave.
  destruct (makedirs _ _ _ _ _) as [[[|e] fs1] |]; [| done..].
  unfold write_results in Hsave.
  destruct (fs_open_w output_file fs1) as [| fs3] eqn:Hopen; [done |].
  injection Hsave as <-.
  exists (text_of_lines (sorted order)). split_and!; [| | done].
  - by rewrite (foldl_write_read fs_write fs_read _ _ _ []
                  write_adds_at_the_end
                  (open_w_gives_an_empty_file _ _ _ Hopen)).
  - rewrite text_lines_of_lines.
    + simpl. do 3 f_equal.
      rewrite (Permutation_length (sorted_Permutation order)).
      by rewrite (Permutation_length Hit).
    + apply Forall_forall. intros l Hl.
      apply (iterates_elem_of _ _ _ Hit) in Hl.
      by eapply collect_no_newline.
Qed.

End ReportedTotal.

Section DecodeFacts.

Lemma is_scalar_spec (c : N) :
  is_scalar c = true <-> c < 55296 \/ (57343 < c /\ c < 1114112).
Proof.
  unfold is_scalar.
  rewrite orb_true_iff, andb_true_iff, !N.ltb_lt. tauto.
Qed.

Lemma is_continuation_spec (b : N) :
  is_continuation b = true <-> 128 <= b <= 191.
Proof.
  unfold is_continuation. rewrite andb_true_iff, !N.leb_le. tauto.
Qed.

Lemma utf8_ignore_scalar (n : nat) (bs : list N) :
  (length bs <= n)%nat ->
  Forall (fun c => is_scalar c = true) (utf8_ignore bs) /\
  (length (utf8_ignore bs) <= length bs)%nat.
Proof.
  revert bs. induction n as [|n IH]; intros bs Hn.
  { destruct bs; [split; [constructor | done] | simpl in Hn; lia]. }
  destruct bs as [|b0 r0]; [split; [constructor | done] |].
  simpl in Hn. cbn [utf8_ignore].
  assert (Hskip : Forall (fun c => is_scalar c = true) (utf8_ignore r0) /\
                  (length (utf8_ignore r0) <= length (b0 :: r0))%nat).
  { destruct (IH r0 ltac:(lia)). split; [done | simpl; lia]. }
  destruct (b0 <? 128) eqn:H0.
  { apply N.ltb_lt in H0. destruct (IH r0 ltac:(lia)). split.
    - constructor; [apply is_scalar_spec; lia | done].
    - simpl. lia. }
  destruct ((194 <=? b0) && (b0 <=? 223)) eqn:H2.
  { apply andb_true_iff in H2 as [?%N.leb_le ?%N.leb_le].
    destruct r0 as [|b1 r1]; [split; [constructor | simpl; lia] |].
    destruct (is_continuation b1) eqn:C1; [| done].
    apply is_continuation_spec in C1. simpl in Hn.
    destruct (IH r1 ltac:(lia)). split.
    - constructor; [apply is_scalar_spec; lia | done].
    - simpl. lia. }
  destruct ((224 <=? b0) && (b0 <=? 239)) eqn:H3.
  { apply andb_true_iff in H3 as [?%N.leb_le ?%N.leb_le].
    destruct r0 as [|b1 [|b2 r2]]; [done.. |].
    destruct (second_of_three b0 b1 && is_continuation b2) eqn:C; [| done].
    apply andb_true_iff in C as [C1 C2%is_continuation_spec].
    simpl in Hn. destruct (IH r2 ltac:(lia)). split; [| simpl; lia].
    constructor; [| done]. apply is_scalar_spec.
    unfold second_of_three in C1.
    destruct (N.eqb_spec b0 224) as [-> |];
      [| destruct (N.eqb_spec b0 237) as [-> |]].
    - apply andb_true_iff in C1 as [?%N.leb_le ?%N.leb_le]. lia.
    - apply andb_true_iff in C1 as [?%N.leb_le ?%N.leb_le]. lia.
    - apply is_continuation_spec in C1. lia. }
  destruct ((240 <=? b0) && (b0 <=? 244)) eqn:H4; [| done].
  apply andb_true_iff in H4 as [?%N.leb_le ?%N.leb_le].
  destruct r0 as [|b1 [|b2 [|b3 r3]]]; [done.. |].
  destruct (second_of_four b0 b1 && is_continuation b2 && is_continuation b3)
    eqn:C; [| done].
  apply andb_true_iff in C as [[C1 C2%is_continuation_spec]%andb_true_iff
                               C3%is_continuation_spec].
  simpl in Hn. destruct (IH r3 ltac:(lia)). split; [| simpl; lia].
  constructor; [| done]. apply is_scalar_spec.
  unfold second_of_four in C1.
  destruct (N.eqb_spec b0 240) as [-> |];
    [| destruct (N.eqb_spec b0 244) as [-> |]].
  - apply andb_true_iff in C1 as [?%N.leb_le ?%N.leb_le]. lia.
  - apply andb_true_iff in C1 as [?%N.leb_le ?%N.leb_le]. lia.
  - apply is_continuation_spec in C1. lia.
Qed.

Lemma utf8_ignore_ascii (bs : list N) :
  Forall (fun b => b < 128) bs -> utf8_ignore bs = bs.
Proof.
  induction 1 as [|b bs Hb _ IH]; [done |].
  cbn [utf8_ignore]. apply N.ltb_lt in Hb. by rewrite Hb, IH.
Qed.

(** The characters of a line of [splitlines] are characters of the
    text. *)
Lemma splitlines_from_elem (n : nat) : forall (s cur line : list N) (c : N),
  (length s <= n)%nat ->
  line ∈ splitlines_from cur s -> c ∈ line -> c ∈ cur \/ c ∈ s.
Proof.
  induction n as [|n IH]; intros s cur line c Hlen.
  - destruct s; [| simpl in Hlen; lia]. simpl.
    destruct cur as [|y cur]; [by intros ?%elem_of_nil |].
    intros ->%list_elem_of_singleton Hc. left. by apply elem_of_rev.
  - destruct s as [|x s]; simpl.
    { destruct cur as [|y cur]; [by intros ?%elem_of_nil |].
      intros ->%list_elem_of_singleton Hc. left. by apply elem_of_rev. }
    simpl in Hlen. destruct (is_linebreak x).
    + intros [-> | Hin]%elem_of_cons Hc.
      { left. by apply elem_of_rev. }
      right. right.
      destruct s as [|y s]; [by apply elem_of_nil in Hin |].
      simpl in Hlen.
      destruct ((x =? 13) && (y =? 10)).
      * destruct (IH s [] line c ltac:(lia) Hin Hc) as [[]%elem_of_nil |].
        by right.
      * by destruct (IH (y :: s) [] line c ltac:(simpl; lia) Hin Hc)
          as [[]%elem_of_nil |].
    + intros Hin Hc.
      destruct (IH s (x :: cur) line c ltac:(lia) Hin Hc)
        as [[-> | ?]%elem_of_cons | ?]; [right; left | by left | by right; right].
Qed.

Lemma kept_line_elem (domain output line : list N) (c : N) :
  kept_line domain output line -> c ∈ line -> c ∈ output.
Proof.
  intros (raw & Hraw & -> & _) Hc%strip_elem.
  by destruct (splitlines_from_elem (length output) output [] raw c
                 ltac:(done) Hraw Hc) as [[]%elem_of_nil |].
Qed.

(** X12. Decoding with [errors="ignore"] yields Unicode scalar values
    only (no surrogate, nothing above U+10FFFF), never more characters
    than bytes, and leaves ASCII bytes as they are; so every line of the
    result set of a run consists of scalar values, whatever bytes the
    tools printed. *)
Theorem written_lines_are_well_formed_text :
  (forall stdout : list byte,
     Forall (fun c => is_scalar c = true) (decode stdout) /\
     (length (decode stdout) <= length stdout)%nat /\
     (Forall (fun b => Byte.to_N b < 128) stdout ->
      decode stdout = map Byte.to_N stdout)) /\
  (forall which check_output domain tr w line,
     main_phases which check_output domain tr w ->
     line ∈ collect domain (output_q w) ->
     Forall (fun c => is_scalar c = true) line).
Proof.
  assert (Hdec : forall stdout : list byte,
            Forall (fun c => is_scalar c = true) (decode stdout) /\
            (length (decode stdout) <= length stdout)%nat).
  { intros stdout. unfold decode.
    destruct (utf8_ignore_scalar (length (map Byte.to_N stdout))
                (map Byte.to_N stdout) ltac:(done)) as [H1 H2].
    by rewrite length_map in H2. }
  split.
  - intros stdout. destruct (Hdec stdout). split_and!; [done | done |].
    intros Hascii. apply utf8_ignore_ascii. by apply Forall_map.
  - intros which check_output domain tr w line Hrun Hline.
    rewrite (collect_Permutation _ _ _ (main_phases_queue _ _ _ _ _ Hrun))
      in Hline.
    apply elem_of_collect in Hline as (name & output & Hin & Hkept).
    apply list_elem_of_In, in_flat_map in Hin as ([n cmd] & _ & Hd).
    unfold delivered in Hd. cbn [fst snd] in Hd.
    destruct (available which cmd) as [|[]]; try done.
    destruct (check_output cmd) as [stdout secs| |]; try done.
    destruct Hd as [[= <- <-] | []].
    destruct (Hdec stdout) as [Hs _]. rewrite Forall_forall in *.
    intros c Hc. apply Hs. by eapply kept_line_elem.
Qed.

End DecodeFacts.

(** ** The properties above on sample runs *)

Lemma every_tool_is_run_once_witness :
  started (trace_in_turn (fast_phase example_com)
           ++ trace_in_turn (slow_phase example_com))
  = fast_phase example_com ++ slow_phase example_com /\
  ended (trace_in_turn (fast_phase example_com)
         ++ trace_in_turn (slow_phase example_com))
  ≡ₚ all_tools example_com /\
  NoDup (started (trace_in_turn (fast_phase example_com)
                  ++ trace_in_turn (slow_phase example_com))) /\
  NoDup (ended (trace_in_turn (fast_phase example_com)
                ++ trace_in_turn (slow_phase example_com))) /\
  length (trace_in_turn (fast_phase example_com)
          ++ trace_in_turn (slow_phase example_com)) = 22%nat.
Proof.
  exact (every_tool_is_run_once two_tools_which two_tools_check_output
           example_com _ _
           (main_phases_in_turn two_tools_which two_tools_check_output
              example_com)).
Defined.

Lemma subprocess_gets_the_commands_of_available_tools_witness :
  py "subfinder -d example.com"
  ∈ invoked
      (run_in_turn two_tools_which two_tools_check_output
         (slow_phase example_com)
         (emit (PhaseHeader 2 (estimate_total_time (slow_phase example_com)))
            (run_in_turn two_tools_which two_tools_check_output
               (fast_phase example_com)
               (emit
                  (PhaseHeader 1
                     (estimate_total_time (fast_phase example_com)))
                  empty_world)))).
Proof.
  apply (proj2 (subprocess_gets_the_commands_of_available_tools
                  two_tools_which two_tools_check_output example_com _ _
                  (main_phases_in_turn two_tools_which two_tools_check_output
                     example_com))).
  exists (py "subfinder"). split; compute_done.
Defined.

Lemma every_tool_logs_one_outcome_witness :
  length
    (filter (fun r => is_Some (status_of r))
       (log
          (run_in_turn two_tools_which two_tools_check_output
             (slow_phase example_com)
             (emit
                (PhaseHeader 2 (estimate_total_time (slow_phase example_com)))
                (run_in_turn two_tools_which two_tools_check_output
                   (fast_phase example_com)
                   (emit
                      (PhaseHeader 1
                         (estimate_total_time (fast_phase example_com)))
                      empty_world)))))) = 11%nat.
Proof.
  exact (proj1 (proj2 (every_tool_logs_one_outcome
                  two_tools_which two_tools_check_output example_com _ _
                  (main_phases_in_turn two_tools_which two_tools_check_output
                     example_com)))).
Defined.

Lemma not_found_means_first_word_is_missing_witness :
  first_token (py "python3 /usr/local/bin/sublist3r -d " ++ example_com)
    (py "python3") /\
  (outcome
     (snd (run_tool two_tools_which two_tools_check_output (py "sublist3r")
             (py "python3 /usr/local/bin/sublist3r -d " ++ example_com)
             empty_world))
   = Some not_found
   <-> two_tools_which (py "python3") = None).
Proof.
  apply (not_found_means_first_word_is_missing
           two_tools_which two_tools_check_output example_com
           (py "sublist3r")).
  compute_done.
Defined.

Lemma output_file_collects_to_itself_witness :
  collect (py "x.org")
    [ (py "file",
       text_of_lines (sorted [py "b.x.org"; py "a.x.org"])) ]
  = collect (py "x.org")
      [ (py "amass", py "b.x.org" ++ [10] ++ py "  a.x.org " ++ [10]) ].
Proof.
  apply (output_file_collects_to_itself (py "x.org") (py "file")
           [ (py "amass", py "b.x.org" ++ [10] ++ py "  a.x.org " ++ [10]) ]
           [py "b.x.org"; py "a.x.org"]).
  unfold iterates. vm_compute. reflexivity.
Defined.

Lemma filter_on_edge_domains_witness :
  collect (py "x.org" ++ [10])
    [ (py "amass", py "a.x.org" ++ [10] ++ py "b.x.org" ++ [10]) ] = ∅.
Proof.
  apply (proj1 (proj2 (filter_on_edge_domains
           [ (py "amass", py "a.x.org" ++ [10] ++ py "b.x.org" ++ [10]) ]))
           (py "x.org" ++ [10]) 10); compute_done.
Defined.

Lemma run_without_ok_tools_collects_nothing_witness :
  output_q
    (run_in_turn (fun _ => None) two_tools_check_output
       (slow_phase example_com)
       (emit (PhaseHeader 2 (estimate_total_time (slow_phase example_com)))
          (run_in_turn (fun _ => None) two_tools_check_output
             (fast_phase example_com)
             (emit
                (PhaseHeader 1 (estimate_total_time (fast_phase example_com)))
                empty_world)))) = [].
Proof.
  refine (proj1 (run_without_ok_tools_collects_nothing
            (fun _ => None) two_tools_check_output example_com _ _ _
            (main_phases_in_turn (fun _ => None) two_tools_check_output
               example_com))).
  intros name cmd _. by left.
Defined.

Lemma reported_total_is_the_number_of_lines_witness :
  exists content,
    FlatFS.read (py "out/x.txt")
      {[ py "out" := None;
         py "out/x.txt"
           := Some (py "a.x.org" ++ [10] ++ py "b.x.org" ++ [10]) ]}
    = Some content /\
    log (emit (Saved (py "out/x.txt") 2)
           (mkWorld [ (py "amass",
                       py "b.x.org" ++ [10] ++ py "  a.x.org " ++ [10]) ]
              [] []))
    = log (mkWorld [ (py "amass",
                      py "b.x.org" ++ [10] ++ py "  a.x.org " ++ [10]) ]
             [] [])
      ++ [Saved (py "out/x.txt") (length (text_lines content))] /\
    output_q (emit (Saved (py "out/x.txt") 2)
                (mkWorld [ (py "amass",
                            py "b.x.org" ++ [10] ++ py "  a.x.org " ++ [10]) ]
                   [] []))
    = output_q (mkWorld [ (py "amass",
                           py "b.x.org" ++ [10] ++ py "  a.x.org " ++ [10]) ]
                  [] []).
Proof.
  apply (reported_total_is_the_number_of_lines
           FlatFS.exists_ FlatFS.isdir FlatFS.mkdir FlatFS.open_w FlatFS.write
           FlatFS.read FlatFS_open_w_truncates FlatFS_write_appends
           (py "x.org") (py "out/x.txt") _ _ ∅).
  apply (main_finish_saved FlatFS.exists_ FlatFS.isdir FlatFS.mkdir
           FlatFS.open_w FlatFS.write (py "x.org") (py "out/x.txt")
           (mkWorld [ (py "amass",
                       py "b.x.org" ++ [10] ++ py "  a.x.org " ++ [10]) ]
              [] [])
           ∅ [py "b.x.org"; py "a.x.org"]).
  - unfold iterates. vm_compute. reflexivity.
  - by vm_compute.
Defined.

Lemma written_lines_are_well_formed_text_witness :
  Forall (fun c => is_scalar c = true) www_example_com.
Proof.
  apply (proj2 written_lines_are_well_formed_text
           two_tools_which two_tools_check_output example_com _ _
           www_example_com
           (main_phases_in_turn two_tools_which two_tools_check_output
              example_com)).
  compute_done.
Defined.
